(** * express-jobly: the company filter builder and the auth middleware

    A shallow embedding of [models/company.js] ([Company.findAll],
    [Company._filterCompanies], and [create], [get], [update], [remove])
    and of [middleware/auth.js] ([authenticateJWT], [ensureLoggedIn],
    [ensureIsAdmin], [ensureIsAdminOrUser]), with the middleware each
    route of [routes/users.js] names, together with the fragment of
    JavaScript's semantics these functions rely on. *)

From Stdlib Require Import Bool List String Ascii NArith ZArith QArith.
From Stdlib Require Import Lia DecimalString DecimalNat.
From Stdlib Require Import Permutation.
Import ListNotations.

Local Open Scope nat_scope.
Local Open Scope list_scope.
Local Open Scope string_scope.

(* ================================================================== *)
(** ** The JavaScript fragment *)
(* ================================================================== *)

Module JS.

(** Numbers: the finite ones are rationals (every finite double is one;
    the two zeros are identified, which none of [>], [===] and ToBoolean
    can tell apart). *)
Inductive number : Type :=
| NaN
| NegInfinity
| Finite (q : Q)
| PosInfinity.

(** Primitive values.  A string is a sequence of code units, here the
    code units below 256. *)
Inductive value : Type :=
| JUndefined
| JNull
| JBool (b : bool)
| JNum (n : number)
| JStr (s : string).

(** A plain object: its own enumerable string-keyed properties, in
    creation order, each key at most once. *)
Definition jsobject : Type := list (string * value).

Definition JInt (z : Z) : value := JNum (Finite (inject_Z z)).

(** *** Property access *)

Fixpoint lookup {A : Type} (k : string) (o : list (string * A)) : option A :=
  match o with
  | [] => None
  | (k', v) :: rest => if (k' =? k)%string then Some v else lookup k rest
  end.

(** [o.k] for a key that [Object.prototype] does not define. *)
Definition get (o : jsobject) (k : string) : value :=
  match lookup k o with
  | Some v => v
  | None => JUndefined
  end.

(** *** ToBoolean, [&&], [||] *)

Definition truthy (v : value) : bool :=
  match v with
  | JUndefined => false
  | JNull => false
  | JBool b => b
  | JNum NaN => false
  | JNum (Finite q) => negb (Qeq_bool q 0)
  | JNum _ => true
  | JStr s => negb (s =? "")%string
  end.

Definition js_and (a b : value) : value := if truthy a then b else a.
Definition js_or (a b : value) : value := if truthy a then a else b.

(** *** Strict equality [===] *)

Definition number_equal (x y : number) : bool :=
  match x, y with
  | NaN, _ => false
  | _, NaN => false
  | Finite p, Finite q => Qeq_bool p q
  | NegInfinity, NegInfinity => true
  | PosInfinity, PosInfinity => true
  | _, _ => false
  end.

Definition strict_eq (a b : value) : bool :=
  match a, b with
  | JUndefined, JUndefined => true
  | JNull, JNull => true
  | JBool x, JBool y => Bool.eqb x y
  | JNum x, JNum y => number_equal x y
  | JStr x, JStr y => (x =? y)%string
  | _, _ => false
  end.

(** *** The relational operator [>] *)

Definition Qltb (p q : Q) : bool := negb (Qle_bool q p).

(** Number::lessThan; [None] is the specification's [undefined]. *)
Definition number_lessThan (x y : number) : option bool :=
  match x, y with
  | NaN, _ => None
  | _, NaN => None
  | PosInfinity, _ => Some false
  | NegInfinity, NegInfinity => Some false
  | Finite _, NegInfinity => Some false
  | _, PosInfinity => Some true
  | NegInfinity, _ => Some true
  | Finite p, Finite q => Some (Qltb p q)
  end.

Section Relational.

(** StringToNumber, the conversion of a string to a number (it rounds to
    the nearest double), is taken as given. *)
Variable StringToNumber : string -> number.

Definition ToNumber (v : value) : number :=
  match v with
  | JUndefined => NaN
  | JNull => Finite 0
  | JBool true => Finite 1
  | JBool false => Finite 0
  | JNum n => n
  | JStr s => StringToNumber s
  end.

(** IsLessThan on primitives: two strings are compared by code units,
    anything else as numbers. *)
Definition IsLessThan (x y : value) : option bool :=
  match x, y with
  | JStr sx, JStr sy => Some (String.ltb sx sy)
  | _, _ => number_lessThan (ToNumber x) (ToNumber y)
  end.

(** [a > b] is IsLessThan(b, a), with [undefined] read as [false]. *)
Definition js_gt (a b : value) : bool :=
  match IsLessThan b a with
  | Some r => r
  | None => false
  end.

End Relational.

(** *** Strings *)

(** White space and line terminators among the code units below 256. *)
Definition is_whitespace (c : ascii) : bool :=
  let n := nat_of_ascii c in
  ((9 <=? n)%nat && (n <=? 13)%nat) || (n =? 32)%nat || (n =? 160)%nat.

Fixpoint trimStart (s : string) : string :=
  match s with
  | "" => ""
  | String c rest => if is_whitespace c then trimStart rest else s
  end.

Fixpoint trimEnd (s : string) : string :=
  match s with
  | "" => ""
  | String c rest =>
      match trimEnd rest with
      | "" => if is_whitespace c then "" else String c ""
      | kept => String c kept
      end
  end.

(** [String.prototype.trim]. *)
Definition trim (s : string) : string := trimEnd (trimStart s).

(** ToString of a non-negative integer, as a template literal does it. *)
Definition nat_to_string (n : nat) : string :=
  NilEmpty.string_of_uint (Nat.to_uint n).

(** *** Arrays *)

(** [Array.prototype.map] with the callback's index argument. *)
Fixpoint map_from {A B : Type} (f : A -> nat -> B) (idx : nat) (l : list A)
  : list B :=
  match l with
  | [] => []
  | a :: rest => f a idx :: map_from f (S idx) rest
  end.

Definition array_map {A B : Type} (f : A -> nat -> B) (l : list A) : list B :=
  map_from f 0 l.

(** [Array.prototype.join] on an array of strings and [undefined]s
    ([None]): an [undefined] element contributes the empty string. *)
Definition join_element (e : option string) : string :=
  match e with
  | Some s => s
  | None => ""
  end.

Fixpoint join (sep : string) (l : list (option string)) : string :=
  match l with
  | [] => ""
  | e :: rest =>
      match rest with
      | [] => join_element e
      | _ :: _ => join_element e ++ sep ++ join sep rest
      end
  end.

(** *** Own property order *)

Definition digit_value (c : ascii) : option N :=
  let n := N_of_ascii c in
  if ((48 <=? n) && (n <=? 57))%N then Some (n - 48)%N else None.

Fixpoint parse_digits (s : string) (acc : N) : option N :=
  match s with
  | "" => Some acc
  | String c rest =>
      match digit_value c with
      | Some d => parse_digits rest (10 * acc + d)%N
      | None => None
      end
  end.

(** An array index is a canonical numeric string below 2^32 - 1. *)
Definition array_index (k : string) : option N :=
  match k with
  | "" => None
  | String c rest =>
      if (c =? "0")%char && negb (rest =? "")%string then None
      else match parse_digits k 0 with
           | Some n => if (n <? 4294967295)%N then Some n else None
           | None => None
           end
  end.

Definition is_array_index (k : string) : bool :=
  match array_index k with
  | Some _ => true
  | None => false
  end.

Definition index_of (k : string) : N :=
  match array_index k with
  | Some n => n
  | None => 0%N
  end.

Fixpoint insert_by_index {A : Type} (p : string * A) (l : list (string * A))
  : list (string * A) :=
  match l with
  | [] => [p]
  | q :: rest =>
      if (index_of (fst p) <=? index_of (fst q))%N then p :: l
      else q :: insert_by_index p rest
  end.

Fixpoint sort_by_index {A : Type} (l : list (string * A)) : list (string * A) :=
  match l with
  | [] => []
  | p :: rest => insert_by_index p (sort_by_index rest)
  end.

(** OrdinaryOwnPropertyKeys: array indices in ascending order, then the
    other keys in creation order. *)
Definition Object_entries (o : jsobject) : list (string * value) :=
  (sort_by_index (filter (fun p => is_array_index (fst p)) o)
   ++ filter (fun p => negb (is_array_index (fst p))) o)%list.

Definition Object_keys (o : jsobject) : list string :=
  map fst (Object_entries o).

Definition Object_values (o : jsobject) : list value :=
  map snd (Object_entries o).

End JS.

(* ================================================================== *)
(** ** expressError.js: the error classes the two files throw *)
(* ================================================================== *)

Module ExpressError.

Inductive error : Type :=
| BadRequestError (message : string)
| UnauthorizedError
| JsonWebTokenError (message : string)
| DatabaseError (message : string).

(** How a call ends: it returns, or it throws. *)
Inductive outcome (A : Type) : Type :=
| Returned (a : A)
| Thrown (e : error).

Arguments Returned {A} a.
Arguments Thrown {A} e.

(** [try { body } catch (err) { handler }]. *)
Definition try_catch {A : Type} (body : outcome A) (handler : error -> outcome A)
  : outcome A :=
  match body with
  | Returned a => Returned a
  | Thrown err => handler err
  end.

(** Sequencing: a throw in the first statement skips the rest. *)
Definition and_then {A B : Type} (m : outcome A) (k : A -> outcome B)
  : outcome B :=
  match m with
  | Returned a => k a
  | Thrown e => Thrown e
  end.

End ExpressError.

(* ================================================================== *)
(** ** db.js: the store, seen through [db.query] *)
(* ================================================================== *)

Module Db.
Import JS ExpressError.

(** One call of [db.query(text, params)]. *)
Record db_call : Type := mk_call { call_text : string; call_params : list value }.

Definition row : Type := jsobject.

(** A computation that talks to the store: it is handed the calls made so
    far and gives back how it ended and the calls made by then. *)
Definition io (A : Type) : Type := list db_call -> outcome A * list db_call.

Definition ret {A : Type} (a : A) : io A := fun log => (Returned a, log).

Definition throw {A : Type} (e : error) : io A := fun log => (Thrown e, log).

Definition bind {A B : Type} (m : io A) (k : A -> io B) : io B :=
  fun log =>
    match m log with
    | (Returned a, log') => k a log'
    | (Thrown e, log') => (Thrown e, log')
    end.

(** [await db.query(text, params)]: the call is recorded, and the store
    answers with the result's rows or rejects. *)
Definition query (store : string -> list value -> outcome (list row))
  (text : string) (params : list value) : io (list row) :=
  fun log => (store text params, (log ++ [mk_call text params])%list).

End Db.

Declare Scope io_scope.
Delimit Scope io_scope with io.
Notation "x <- m ;; k" := (Db.bind m (fun x => k))
  (at level 61, m at next level, right associativity) : io_scope.

(* ================================================================== *)
(** ** models/company.js *)
(* ================================================================== *)

Module Company.
Import JS ExpressError Db.

(** The query fragment [{ setCols, values }]. *)
Record fragment : Type := mk_fragment { setCols : string; values : list value }.

(** The callback of [keys.map] in [_filterCompanies]; [None] is the
    [undefined] it returns when no [if] fires. *)
Definition filter_of_key (colName : string) (idx : nat) : option string :=
  if (colName =? "minEmployees")%string
  then Some ("num_employees >= $" ++ nat_to_string (idx + 1))
  else if (colName =? "maxEmployees")%string
  then Some ("num_employees <=  $" ++ nat_to_string (idx + 1))
  else if (colName =? "nameLike")%string
  then Some ("name ILIKE '%'||$" ++ nat_to_string (idx + 1) ++ "||'%'")
  else None.

Definition _filterCompanies (data : jsobject) : fragment :=
  let keys := Object_keys data in
  if (List.length keys <? 1)%nat then mk_fragment "" []
  else
    let whereClause := "WHERE " in
    let filters := array_map filter_of_key keys in
    mk_fragment (whereClause ++ join " AND " filters) (Object_values data).

Definition newline : string := String (ascii_of_nat 10) "".
Definition dquote : string := String (ascii_of_nat 34) "".

(** The template literal of [findAll], with [setCols] interpolated. *)
Definition findAll_text (setCols : string) : string :=
  newline ++
  "        SELECT handle," ++ newline ++
  "               name," ++ newline ++
  "               description," ++ newline ++
  "               num_employees AS " ++ dquote ++ "numEmployees" ++ dquote ++ "," ++ newline ++
  "               logo_url      AS " ++ dquote ++ "logoUrl" ++ dquote ++ newline ++
  "        FROM companies" ++ newline ++
  "        " ++ setCols ++ newline ++
  "        ORDER BY name".

Section FindAll.

Variable StringToNumber : string -> number.
Variable store : string -> list value -> outcome (list row).

(** [findAll(filter = {})]: [None] is a missing (or [undefined])
    argument. *)
Definition findAll (filter : option jsobject) : io (list row) :=
  let filter := match filter with Some f => f | None => [] end in
  let minEmployees := get filter "minEmployees" in
  let maxEmployees := get filter "maxEmployees" in
  if js_gt StringToNumber minEmployees maxEmployees
  then throw (BadRequestError "minEmployees must be less than maxEmployees")
  else
    let frag := _filterCompanies filter in
    (companiesRes <- query store (findAll_text (setCols frag)) (values frag) ;;
     ret companiesRes)%io.

End FindAll.

End Company.

(* ================================================================== *)
(** ** middleware/auth.js *)
(* ================================================================== *)

Module Auth.
Import JS ExpressError.

(** What [jwt.verify] returns: the payload object, or the payload as a
    string when it is not the JSON text of an object. *)
Inductive payload : Type :=
| PObject (props : jsobject)
| PString (s : string).

(** The request: [req.headers] (which may be missing) and [req.params]. *)
Record request : Type := mk_request {
  headers : option (list (string * string));
  params : list (string * string)
}.

(** The response: [res.locals.user]; [None] is [undefined]. *)
Record response : Type := mk_response { locals_user : option payload }.

(** [res.locals.user = user]. *)
Definition set_user (res : response) (user : payload) : response :=
  mk_response (Some user).

(** [req.headers?.authorization]. *)
Definition authorization (req : request) : option string :=
  match headers req with
  | Some h => lookup "authorization" h
  | None => None
  end.

(** [req.params.k]. *)
Definition param (req : request) (k : string) : value :=
  match lookup k (params req) with
  | Some s => JStr s
  | None => JUndefined
  end.

(** [user?.k], for a key that neither [Object.prototype] nor
    [String.prototype] defines. *)
Definition user_prop (user : option payload) (k : string) : value :=
  match user with
  | Some (PObject o) => get o k
  | Some (PString _) => JUndefined
  | None => JUndefined
  end.

(** [s.replace(/^[Bb]earer /, "")]. *)
Definition strip_bearer (s : string) : string :=
  match s with
  | String c rest =>
      if ((c =? "B")%char || (c =? "b")%char) && String.prefix "earer " rest
      then String.substring 6 (String.length rest - 6) rest
      else s
  | "" => ""
  end.

Section Middleware.

(** [SECRET_KEY] of config.js and [jwt.verify] of jsonwebtoken. *)
Variable SECRET_KEY : string.
Variable jwt_verify : string -> string -> outcome payload.

Context {T : Type}.

Definition authenticateJWT (req : request) (res : response)
  (next : response -> outcome T) : outcome T :=
  let authHeader := authorization req in
  and_then
    match authHeader with
    | Some h =>
        if truthy (JStr h) then
          let token := trim (strip_bearer h) in
          try_catch
            (and_then (jwt_verify token SECRET_KEY)
               (fun user => Returned (set_user res user)))
            (fun err => Returned res)
        else Returned res
    | None => Returned res
    end
    next.

Definition ensureLoggedIn (req : request) (res : response)
  (next : response -> outcome T) : outcome T :=
  if truthy (user_prop (locals_user res) "username") then next res
  else Thrown UnauthorizedError.

Definition ensureIsAdmin (req : request) (res : response)
  (next : response -> outcome T) : outcome T :=
  if truthy
       (js_and
          (JBool (strict_eq (user_prop (locals_user res) "isAdmin") (JBool true)))
          (user_prop (locals_user res) "username"))
  then next res
  else Thrown UnauthorizedError.

Definition ensureIsAdminOrUser (req : request) (res : response)
  (next : response -> outcome T) : outcome T :=
  let curUser := locals_user res in
  if truthy
       (js_or
          (user_prop curUser "isAdmin")
          (JBool (strict_eq (user_prop curUser "username") (param req "username"))))
  then next res
  else Thrown UnauthorizedError.

End Middleware.

End Auth.

(* ================================================================== *)
(** ** Vocabulary of the properties *)
(* ================================================================== *)

Module Spec.
Import JS ExpressError.

(** The filter keys the builder knows. *)
Definition recognized (k : string) : bool :=
  (k =? "minEmployees")%string || (k =? "maxEmployees")%string
  || (k =? "nameLike")%string.

Definition all_recognized (data : jsobject) : Prop :=
  Forall (fun p => recognized (fst p) = true) data.

(** The positional placeholder [$K]. *)
Definition placeholder (K : nat) : string := "$" ++ nat_to_string K.

(** The condition a recognized key stands for, with its value bound to
    the placeholder [$K]. *)
Definition condition (key : string) (K : nat) : string :=
  if (key =? "minEmployees")%string then "num_employees >= " ++ placeholder K
  else if (key =? "maxEmployees")%string then "num_employees <=  " ++ placeholder K
  else "name ILIKE '%'||" ++ placeholder K ++ "||'%'".

(** [needle] occurs in [s]. *)
Definition occurs_in (needle s : string) : bool :=
  match String.index 0 needle s with
  | Some _ => true
  | None => false
  end.

(** The order of the numbers that are not [NaN]. *)
Inductive number_lt : number -> number -> Prop :=
| lt_finite (p q : Q) : (p < q)%Q -> number_lt (Finite p) (Finite q)
| lt_below (q : Q) : number_lt NegInfinity (Finite q)
| lt_above (p : Q) : number_lt (Finite p) PosInfinity
| lt_ends : number_lt NegInfinity PosInfinity.

Inductive number_le : number -> number -> Prop :=
| le_finite (p q : Q) : (p <= q)%Q -> number_le (Finite p) (Finite q)
| le_below (y : number) : y <> NaN -> number_le NegInfinity y
| le_above (x : number) : x <> NaN -> number_le x PosInfinity.

(** The error of [findAll] for a lower bound above the upper bound. *)
Definition inverted_range : error :=
  BadRequestError "minEmployees must be less than maxEmployees".

(** One query for the companies that match [filter], whose answer is the
    result. *)
Definition filtered_query (store : string -> list value -> outcome (list Db.row))
  (filter : jsobject) : Db.io (list Db.row) :=
  Db.query store
    (Company.findAll_text (Company.setCols (Company._filterCompanies filter)))
    (Company.values (Company._filterCompanies filter)).

End Spec.

(* ================================================================== *)
(** ** Requests and tokens for the examples *)
(* ================================================================== *)

Module Fixture.
Import JS ExpressError Auth.

Definition alice : payload :=
  PObject [("username", JStr "alice"); ("isAdmin", JBool false)].

(** A user whose [isAdmin] is the string ["true"], and one whose
    [isAdmin] is the number 1. *)
Definition alice_string_flag : payload :=
  PObject [("username", JStr "alice"); ("isAdmin", JStr "true")].

Definition alice_number_flag : payload :=
  PObject [("username", JStr "alice"); ("isAdmin", JInt 1)].

Definition root : payload :=
  PObject [("username", JStr "root"); ("isAdmin", JBool true)].

(** A verifier that accepts the one token ["tok"], signed for [alice]. *)
Definition verify_tok (token secret : string) : outcome payload :=
  if (token =? "tok")%string && (secret =? "s3cret")%string
  then Returned alice
  else Thrown (JsonWebTokenError "jwt malformed").

Definition with_authorization (h : string) : request :=
  mk_request (Some [("authorization", h)]) [].

(** A request to [/:username]. *)
Definition about_user (username : string) : request :=
  mk_request (Some []) [("username", username)].

(** A request to a route without a [username] parameter. *)
Definition no_params : request := mk_request (Some []) [].

Definition anonymous : response := mk_response None.

Definition logged_in (user : payload) : response := mk_response (Some user).

End Fixture.

(* ================================================================== *)
(** ** models/company.js: the operations on single companies *)
(* ================================================================== *)

Module Rows.
Import JS ExpressError Db.

(** What these operations throw: the errors above and [NotFoundError],
    the further class of expressError.js. *)
Inductive failure : Type :=
| Express (e : error)
| NotFoundError (message : string).

Inductive result (A : Type) : Type :=
| Resolved (a : A)
| Rejected (f : failure).

Arguments Resolved {A} a.
Arguments Rejected {A} f.

(** An async function over the store, as [Db.io] is, with [failure] for
    what it rejects with. *)
Definition task (A : Type) : Type := list db_call -> result A * list db_call.

Definition ret {A : Type} (a : A) : task A := fun log => (Resolved a, log).

Definition throw {A : Type} (f : failure) : task A := fun log => (Rejected f, log).

Definition bind {A B : Type} (m : task A) (k : A -> task B) : task B :=
  fun log =>
    match m log with
    | (Resolved a, log') => k a log'
    | (Rejected f, log') => (Rejected f, log')
    end.

(** [await db.query(text, params)] on a store whose answers may depend on
    the calls made before. *)
Definition query (db : list db_call -> string -> list value -> outcome (list row))
  (text : string) (params : list value) : task (list row) :=
  fun log =>
    match Db.query (db log) text params log with
    | (Returned rows, log') => (Resolved rows, log')
    | (Thrown e, log') => (Rejected (Express e), log')
    end.

(** [rows[0]]: the first row, or [undefined]. *)
Definition first_row (rows : list row) : option row := hd_error rows.

End Rows.

Declare Scope task_scope.
Delimit Scope task_scope with task.
Notation "x <-- m ;; k" := (Rows.bind m (fun x => k))
  (at level 61, m at next level, right associativity) : task_scope.

Module CompanyRows.
Import JS ExpressError Db Rows.

Definition newline : string := Company.newline.
Definition dquote : string := Company.dquote.

(** The template literals of the queries. *)
Definition create_select_text : string :=
  newline ++
  "        SELECT handle" ++ newline ++
  "        FROM companies" ++ newline ++
  "        WHERE handle = $1".

Definition create_insert_text : string :=
  newline ++
  "                INSERT INTO companies (handle," ++ newline ++
  "                                       name," ++ newline ++
  "                                       description," ++ newline ++
  "                                       num_employees," ++ newline ++
  "                                       logo_url)" ++ newline ++
  "                VALUES ($1, $2, $3, $4, $5)" ++ newline ++
  "                RETURNING" ++ newline ++
  "                    handle," ++ newline ++
  "                    name," ++ newline ++
  "                    description," ++ newline ++
  "                    num_employees AS " ++ dquote ++ "numEmployees" ++ dquote ++ "," ++ newline ++
  "                    logo_url AS " ++ dquote ++ "logoUrl" ++ dquote.

Definition get_company_text : string :=
  newline ++
  "        SELECT handle," ++ newline ++
  "               name," ++ newline ++
  "               description," ++ newline ++
  "               num_employees AS " ++ dquote ++ "numEmployees" ++ dquote ++ "," ++ newline ++
  "               logo_url      AS " ++ dquote ++ "logoUrl" ++ dquote ++ newline ++
  "        FROM companies" ++ newline ++
  "        WHERE handle = $1".

Definition get_jobs_text : string :=
  newline ++
  "        SELECT id," ++ newline ++
  "               title," ++ newline ++
  "               salary," ++ newline ++
  "               equity," ++ newline ++
  "               company_handle AS " ++ dquote ++ "companyHandle" ++ dquote ++ newline ++
  "        FROM jobs" ++ newline ++
  "        WHERE company_handle = $1" ++ newline ++
  "        ORDER BY id DESC".

(** The template literal of [update], with [setCols] and [handleVarIdx]
    interpolated. *)
Definition update_text (setCols handleVarIdx : string) : string :=
  newline ++
  "        UPDATE companies" ++ newline ++
  "        SET " ++ setCols ++ newline ++
  "        WHERE handle = " ++ handleVarIdx ++ newline ++
  "        RETURNING" ++ newline ++
  "            handle," ++ newline ++
  "            name," ++ newline ++
  "            description," ++ newline ++
  "            num_employees AS " ++ dquote ++ "numEmployees" ++ dquote ++ "," ++ newline ++
  "            logo_url AS " ++ dquote ++ "logoUrl" ++ dquote.

Definition remove_text : string :=
  newline ++
  "        DELETE" ++ newline ++
  "        FROM companies" ++ newline ++
  "        WHERE handle = $1" ++ newline ++
  "        RETURNING handle".

(** What [get] returns: the company's row with [jobs] set to the rows of
    its jobs. *)
Record company_with_jobs : Type := mk_company { company : row; jobs : list row }.

Section Operations.

(** Number::toString, which a template literal applies to a number, is
    taken as given. *)
Variable NumberToString : number -> string.

(** The store. *)
Variable db : list db_call -> string -> list value -> outcome (list row).

(** [sqlForPartialUpdate] of helpers/sql.js, which is taken as given: it
    returns [{ setCols, values }] or throws. *)
Variable sqlForPartialUpdate :
  jsobject -> list (string * string) -> outcome Company.fragment.

(** ToString of a primitive value, as a template literal does it. *)
Definition ToString (v : value) : string :=
  match v with
  | JUndefined => "undefined"
  | JNull => "null"
  | JBool true => "true"
  | JBool false => "false"
  | JNum n => NumberToString n
  | JStr s => s
  end.

(** [create({ handle, name, description, numEmployees, logoUrl })]. *)
Definition create (data : jsobject) : task (option row) :=
  let handle := get data "handle" in
  let name := get data "name" in
  let description := get data "description" in
  let numEmployees := get data "numEmployees" in
  let logoUrl := get data "logoUrl" in
  (duplicateCheck <-- query db create_select_text [handle] ;;
   match first_row duplicateCheck with
   | Some _ =>
       throw (Express (BadRequestError ("Duplicate company: " ++ ToString handle)))
   | None =>
       result <-- query db create_insert_text
                    [handle; name; description; numEmployees; logoUrl] ;;
       let company := first_row result in
       ret company
   end)%task.

Definition get (handle : value) : task company_with_jobs :=
  (companyRes <-- query db get_company_text [handle] ;;
   match first_row companyRes with
   | None => throw (NotFoundError ("No company: " ++ ToString handle))
   | Some company =>
       jobRes <-- query db get_jobs_text [handle] ;;
       ret (mk_company company jobRes)
   end)%task.

Definition update (handle : value) (data : jsobject) : task row :=
  match sqlForPartialUpdate data
          [("numEmployees", "num_employees"); ("logoUrl", "logo_url")] with
  | Thrown e => throw (Express e)
  | Returned frag =>
      let setCols := Company.setCols frag in
      let values := Company.values frag in
      let handleVarIdx := "$" ++ nat_to_string (List.length values + 1) in
      let querySql := update_text setCols handleVarIdx in
      (result <-- query db querySql (values ++ [handle])%list ;;
       match first_row result with
       | None => throw (NotFoundError ("No company: " ++ ToString handle))
       | Some company => ret company
       end)%task
  end.

Definition remove (handle : value) : task unit :=
  (result <-- query db remove_text [handle] ;;
   match first_row result with
   | None => throw (NotFoundError ("No company: " ++ ToString handle))
   | Some _ => ret tt
   end)%task.

End Operations.

End CompanyRows.

(* ================================================================== *)
(** ** routes/users.js: which middleware guards which route *)
(* ================================================================== *)

Module UsersRoutes.
Import JS ExpressError Auth.

Inductive route : Type :=
| PostUsers         (* POST / *)
| GetUsers          (* GET / *)
| GetUser           (* GET /:username *)
| PatchUser         (* PATCH /:username *)
| DeleteUser        (* DELETE /:username *)
| PostUserJob.      (* POST /:username/jobs/:jobId *)

(** The path of the route has the parameter [:username]. *)
Definition has_username (r : route) : bool :=
  match r with
  | PostUsers | GetUsers => false
  | GetUser | PatchUser | DeleteUser | PostUserJob => true
  end.

Section Router.

Context {T : Type}.

(** The route's handler function, the last argument of [router.METHOD]. *)
Variable handler : route -> request -> response -> outcome T.

(** The middleware named between the path and the handler. *)
Definition middleware (r : route)
  : request -> response -> (response -> outcome T) -> outcome T :=
  match r with
  | PostUsers => ensureIsAdmin
  | GetUsers => ensureIsAdmin
  | GetUser => ensureIsAdminOrUser
  | PatchUser => ensureIsAdminOrUser
  | DeleteUser => ensureIsAdminOrUser
  | PostUserJob => ensureIsAdminOrUser
  end.

(** A request matched to the route [r]: the middleware runs, and its
    [next] is the handler. *)
Definition dispatch (r : route) (req : request) (res : response) : outcome T :=
  middleware r req res (fun res' => handler r req res').

End Router.

End UsersRoutes.

(* ================================================================== *)
(** ** Further vocabulary *)
(* ================================================================== *)

Module Terms.
Import JS ExpressError Db Auth.

(** The gate lets the request through: with a [next] that returns, it
    returns. *)
Definition admits
  (gate : request -> response -> (response -> outcome unit) -> outcome unit)
  (req : request) (res : response) : Prop :=
  gate req res (fun _ => Returned tt) = Returned tt.

(** The request carries the route parameter [username], as every request
    matched to a path with [:username] does. *)
Definition targets (req : request) (username : string) : Prop :=
  lookup "username" (params req) = Some username.

(** A string of white space only. *)
Fixpoint all_whitespace (s : string) : bool :=
  match s with
  | "" => true
  | String c rest => is_whitespace c && all_whitespace rest
  end.

(** The texts of the calls in a log. *)
Definition texts (log : list db_call) : list string := map call_text log.

End Terms.

(* ================================================================== *)
(** ** Stores and data for the examples *)
(* ================================================================== *)

Module Samples.
Import JS ExpressError Db.

Definition acme : row :=
  [("handle", JStr "acme"); ("name", JStr "Acme"); ("description", JStr "Anvils");
   ("numEmployees", JInt 12); ("logoUrl", JNull)].

(** A store without rows: every query answers with no row. *)
Definition empty_db (log : list db_call) (text : string) (params : list value)
  : outcome (list row) := Returned [].

(** A store that answers every query with the row of [acme]. *)
Definition acme_db (log : list db_call) (text : string) (params : list value)
  : outcome (list row) := Returned [acme].

(** Number::toString on the non-negative integers, which is all the
    examples use. *)
Definition digit_to_string (n : number) : string :=
  match n with
  | Finite q => nat_to_string (Z.to_nat (Qnum q))
  | _ => "NaN"
  end.

(** A stand-in for [sqlForPartialUpdate] that sets the name. *)
Definition set_name (data : jsobject) (jsToSql : list (string * string))
  : outcome Company.fragment :=
  match lookup "name" data with
  | Some v => Returned (Company.mk_fragment "name = $1" [v])
  | None => Thrown (BadRequestError "No data")
  end.

End Samples.

(* ================================================================== *)
(** ** Properties of the filter builder *)
(* ================================================================== *)

Module CompanyProps.
Import JS ExpressError Db Company Spec.

Lemma recognized_not_index (k : string) :
  recognized k = true -> is_array_index k = false.
Proof.
  unfold recognized. intros H.
  apply orb_true_iff in H. destruct H as [H | H].
  - apply orb_true_iff in H.
    destruct H as [H | H]; apply String.eqb_eq in H; subst k; reflexivity.
  - apply String.eqb_eq in H. subst k. reflexivity.
Qed.

Lemma no_index_among_recognized (data : jsobject) :
  all_recognized data ->
  filter (fun p => is_array_index (fst p)) data = [].
Proof.
  induction 1 as [| [k v] rest Hk _ IH]; [reflexivity |].
  cbn [filter fst]. now rewrite (recognized_not_index k Hk).
Qed.

Lemma recognized_all_kept (data : jsobject) :
  all_recognized data ->
  filter (fun p => negb (is_array_index (fst p))) data = data.
Proof.
  induction 1 as [| [k v] rest Hk _ IH]; [reflexivity |].
  cbn [filter fst]. rewrite (recognized_not_index k Hk). cbn [negb].
  now rewrite IH.
Qed.

(** With recognized keys only, the own property order is the creation
    order. *)
Lemma Object_entries_recognized (data : jsobject) :
  all_recognized data -> Object_entries data = data.
Proof.
  intros H. unfold Object_entries.
  rewrite (no_index_among_recognized data H), (recognized_all_kept data H).
  reflexivity.
Qed.

(** The own property order is a function of the keys alone. *)
Lemma insert_by_index_keys {A B : Type} (p : string * A) (q : string * B)
  (l : list (string * A)) (m : list (string * B)) :
  fst p = fst q -> map fst l = map fst m ->
  map fst (insert_by_index p l) = map fst (insert_by_index q m).
Proof.
  intros Hpq. revert m.
  induction l as [| x l IH]; intros [| y m] Hlm; try discriminate.
  - cbn. now rewrite Hpq.
  - cbn in Hlm. injection Hlm as Hxy Hlm.
    cbn [insert_by_index]. rewrite <- Hpq, <- Hxy.
    destruct (index_of (fst p) <=? index_of (fst x))%N.
    + cbn. now rewrite Hpq, Hxy, Hlm.
    + cbn. rewrite Hxy. f_equal. now apply IH.
Qed.

Lemma sort_by_index_keys {A B : Type} (l : list (string * A))
  (m : list (string * B)) :
  map fst l = map fst m ->
  map fst (sort_by_index l) = map fst (sort_by_index m).
Proof.
  revert m.
  induction l as [| x l IH]; intros [| y m] Hlm; try discriminate.
  - reflexivity.
  - cbn in Hlm. injection Hlm as Hxy Hlm.
    cbn [sort_by_index]. apply insert_by_index_keys; [assumption |].
    now apply IH.
Qed.

Lemma filter_keys {A B : Type} (f : string -> bool) (l : list (string * A))
  (m : list (string * B)) :
  map fst l = map fst m ->
  map fst (filter (fun p => f (fst p)) l) = map fst (filter (fun p => f (fst p)) m).
Proof.
  revert m.
  induction l as [| x l IH]; intros [| y m] Hlm; try discriminate.
  - reflexivity.
  - cbn in Hlm. injection Hlm as Hxy Hlm.
    cbn [filter]. rewrite Hxy.
    destruct (f (fst y)); cbn; [rewrite Hxy; f_equal |]; now apply IH.
Qed.

Lemma Object_keys_only_keys (d1 d2 : jsobject) :
  map fst d1 = map fst d2 -> Object_keys d1 = Object_keys d2.
Proof.
  intros H. unfold Object_keys, Object_entries.
  rewrite !map_app. f_equal.
  - apply sort_by_index_keys.
    now apply (filter_keys is_array_index).
  - now apply (filter_keys (fun k => negb (is_array_index k))).
Qed.

(** [join] on an array without holes is the library's [concat]. *)
Lemma join_concat (sep : string) (l : list string) :
  join sep (map Some l) = String.concat sep l.
Proof.
  induction l as [| x [| y l] IH]; [reflexivity | reflexivity |].
  change (join sep (map Some (x :: y :: l)))
    with (x ++ sep ++ join sep (map Some (y :: l))).
  now rewrite IH.
Qed.

Lemma filter_of_key_recognized (k : string) (idx : nat) :
  recognized k = true -> filter_of_key k idx = Some (condition k (S idx)).
Proof.
  unfold recognized, filter_of_key, condition, placeholder. intros H.
  rewrite Nat.add_1_r.
  destruct (k =? "minEmployees")%string; [reflexivity |].
  destruct (k =? "maxEmployees")%string; [reflexivity |].
  destruct (k =? "nameLike")%string; [reflexivity | discriminate].
Qed.

Lemma map_from_recognized (keys : list string) (idx : nat) :
  Forall (fun k => recognized k = true) keys ->
  map_from filter_of_key idx keys
  = map Some (map_from (fun k i => condition k (S i)) idx keys).
Proof.
  intros H. revert idx.
  induction H as [| k keys Hk _ IH]; intros idx; [reflexivity |].
  cbn [map_from map]. now rewrite IH, (filter_of_key_recognized k idx Hk).
Qed.

(** Distinct positions get distinct placeholders. *)
Lemma nat_to_string_injective (m n : nat) :
  nat_to_string m = nat_to_string n -> m = n.
Proof.
  unfold nat_to_string. intros H.
  assert (Some (Nat.to_uint m) = Some (Nat.to_uint n)) as E
    by now rewrite <- !NilEmpty.usu, H.
  injection E as E.
  now rewrite <- (Unsigned.of_to m), <- (Unsigned.of_to n), E.
Qed.

Lemma placeholder_injective (m n : nat) : placeholder m = placeholder n -> m = n.
Proof.
  unfold placeholder. intros H. injection H as H.
  now apply nat_to_string_injective.
Qed.

Lemma map_from_length {A B : Type} (f : A -> nat -> B) (idx : nat) (l : list A) :
  List.length (map_from f idx l) = List.length l.
Proof.
  revert idx. induction l as [| a l IH]; intros idx; cbn; [reflexivity |].
  now rewrite IH.
Qed.

Lemma map_from_nth_error {A B : Type} (f : A -> nat -> B) (l : list A) :
  forall (idx K : nat) (a : A),
    nth_error l K = Some a ->
    nth_error (map_from f idx l) K = Some (f a (idx + K)).
Proof.
  induction l as [| x l IH]; intros idx [| K] a H; try discriminate.
  - cbn in H |- *. injection H as ->. now rewrite Nat.add_0_r.
  - cbn in H |- *. rewrite (IH (S idx) K a H). f_equal. f_equal. lia.
Qed.

Lemma no_keys_no_values (data : jsobject) :
  (List.length (Object_keys data) <? 1)%nat = true -> Object_values data = [].
Proof.
  unfold Object_keys, Object_values. intros H.
  destruct (Object_entries data) as [| p l]; [reflexivity | discriminate].
Qed.

Lemma number_lt_lessThan (x y : number) :
  number_lt x y -> number_lessThan x y = Some true.
Proof.
  intros [p q Hpq | q | p |]; try reflexivity.
  cbn. unfold Qltb. f_equal.
  destruct (Qle_bool q p) eqn:E; [| reflexivity].
  apply Qle_bool_iff in E. exfalso. now apply (Qlt_not_le p q).
Qed.

Lemma number_le_lessThan (x y : number) :
  number_le x y -> number_lessThan y x = Some false.
Proof.
  intros [p q Hpq | y' Hy | x' Hx].
  - cbn. unfold Qltb. f_equal.
    apply Qle_bool_iff in Hpq. now rewrite Hpq.
  - destruct y'; [congruence | reflexivity ..].
  - destruct x'; [congruence | reflexivity ..].
Qed.

Section Undefined.

Variable StringToNumber : string -> number.

Lemma lessThan_NaN_r (n : number) : number_lessThan n NaN = None.
Proof. now destruct n. Qed.

Lemma js_gt_undefined_l (b : value) : js_gt StringToNumber JUndefined b = false.
Proof.
  unfold js_gt.
  replace (IsLessThan StringToNumber b JUndefined)
    with (number_lessThan (ToNumber StringToNumber b) NaN)
    by now destruct b.
  now rewrite lessThan_NaN_r.
Qed.

Lemma js_gt_undefined_r (a : value) : js_gt StringToNumber a JUndefined = false.
Proof. reflexivity. Qed.

End Undefined.

(** C1, at an input with a key the builder does not know: the key leaves
    an empty operand of [AND] in the clause, and its value is bound. *)
Theorem filterCompanies_unrecognized_key :
  _filterCompanies [("foo", JInt 1); ("minEmployees", JInt 2)]
  = mk_fragment "WHERE  AND num_employees >= $2" [JInt 1; JInt 2].
Proof. reflexivity. Qed.

(** The same with the unknown key alone: a [WHERE] with nothing after it. *)
Example filterCompanies_only_unrecognized :
  _filterCompanies [("foo", JInt 1)] = mk_fragment "WHERE " [JInt 1].
Proof. reflexivity. Qed.

(** C3: the clause is determined by the keys; two filters with the same
    keys in the same order get the same clause whatever their values are,
    and the values go to the bound-values list, all of them. *)
Theorem filterCompanies_clause_from_keys (d1 d2 : jsobject) :
  map fst d1 = map fst d2 ->
  setCols (_filterCompanies d1) = setCols (_filterCompanies d2)
  /\ values (_filterCompanies d1) = Object_values d1
  /\ values (_filterCompanies d2) = Object_values d2.
Proof.
  intros Hkeys.
  assert (forall d, values (_filterCompanies d) = Object_values d) as Hvalues.
  { intros d. unfold _filterCompanies.
    destruct (List.length (Object_keys d) <? 1)%nat eqn:E; cbn [values].
    - symmetry. now apply no_keys_no_values.
    - reflexivity. }
  split; [| split; apply Hvalues].
  unfold _filterCompanies.
  rewrite (Object_keys_only_keys d1 d2 Hkeys).
  now destruct (List.length (Object_keys d2) <? 1)%nat.
Qed.

Lemma filterCompanies_clause_from_keys_witness :
  setCols (_filterCompanies [("nameLike", JStr "net"); ("minEmployees", JInt 5)])
  = setCols (_filterCompanies
               [("nameLike", JStr "'; DROP TABLE x; --"); ("minEmployees", JNull)]).
Proof.
  apply (filterCompanies_clause_from_keys
           [("nameLike", JStr "net"); ("minEmployees", JInt 5)]
           [("nameLike", JStr "'; DROP TABLE x; --"); ("minEmployees", JNull)]).
  reflexivity.
Defined.

(** C5: the empty filter gives the empty clause and no bound values, and
    the query text of [findAll] then has no [WHERE]. *)
Theorem filterCompanies_empty :
  setCols (_filterCompanies []) = ""
  /\ values (_filterCompanies []) = []
  /\ occurs_in "WHERE" (findAll_text (setCols (_filterCompanies []))) = false.
Proof. repeat split; reflexivity. Qed.

(** C6: for a non-empty filter of recognized keys the clause is [WHERE]
    followed by one condition per key, in creation order, joined by [AND];
    the Kth condition (counting from 1) uses the placeholder [$K], and the
    Kth bound value is the value of the Kth key. *)
Theorem filterCompanies_positional (data : jsobject) :
  data <> [] ->
  all_recognized data ->
  exists frags : list string,
    setCols (_filterCompanies data) = "WHERE " ++ String.concat " AND " frags
    /\ List.length frags = List.length data
    /\ values (_filterCompanies data) = map snd data
    /\ forall (K : nat) (key : string) (v : value),
         nth_error data K = Some (key, v) ->
         nth_error frags K = Some (condition key (S K))
         /\ nth_error (values (_filterCompanies data)) K = Some v.
Proof.
  intros Hne Hrec.
  assert (Forall (fun k => recognized k = true) (map fst data)) as Hkeys.
  { apply Forall_map. exact Hrec. }
  exists (map_from (fun k i => condition k (S i)) 0 (map fst data)).
  unfold _filterCompanies, Object_keys, Object_values, array_map.
  rewrite (Object_entries_recognized data Hrec).
  destruct data as [| p rest]; [contradiction |].
  cbn [List.length map Nat.ltb Nat.leb setCols values] in *.
  rewrite (map_from_recognized _ 0 Hkeys), join_concat.
  repeat split.
  - rewrite map_from_length. cbn. now rewrite length_map.
  - change (fst p :: map fst rest) with (map fst (p :: rest)).
    apply (map_from_nth_error (fun k i => condition k (S i)) (map fst (p :: rest)) 0 K key).
    now rewrite nth_error_map, H.
  - change (snd p :: map snd rest) with (map snd (p :: rest)).
    now rewrite nth_error_map, H.
Qed.

Lemma filterCompanies_positional_witness :
  exists frags : list string,
    setCols (_filterCompanies [("nameLike", JStr "net"); ("maxEmployees", JInt 9)])
    = "WHERE " ++ String.concat " AND " frags
    /\ nth_error frags 1 = Some "num_employees <=  $2"
    /\ nth_error (values (_filterCompanies
                            [("nameLike", JStr "net"); ("maxEmployees", JInt 9)])) 1
       = Some (JInt 9).
Proof.
  destruct (filterCompanies_positional
              [("nameLike", JStr "net"); ("maxEmployees", JInt 9)])
    as [frags [Hclause [_ [_ Hnth]]]].
  - discriminate.
  - repeat constructor.
  - exists frags. split; [exact Hclause |].
    exact (Hnth 1 "maxEmployees" (JInt 9) eq_refl).
Defined.


Section FindAllProps.

Variable StringToNumber : string -> number.
Variable store : string -> list value -> outcome (list row).

Lemma findAll_checked (filter : jsobject) (log : list db_call) :
  js_gt StringToNumber (get filter "minEmployees") (get filter "maxEmployees")
  = false ->
  findAll StringToNumber store (Some filter) log = filtered_query store filter log.
Proof.
  intros H. unfold findAll, filtered_query. rewrite H.
  unfold bind, query, ret.
  now destruct (store _ _).
Qed.

(** C4: with both bounds present and numeric, lower above upper makes
    [findAll] throw the range error with no call to the store; with
    lower at most upper, or with a bound missing, or with no filter at
    all, [findAll] does not throw it: it sends its one query and the
    store's answer is the result. *)
Theorem findAll_range_check (filter : jsobject) (log : list db_call) :
  (forall lower upper : number,
      lookup "minEmployees" filter = Some (JNum lower) ->
      lookup "maxEmployees" filter = Some (JNum upper) ->
      number_lt upper lower ->
      findAll StringToNumber store (Some filter) log = (Thrown inverted_range, log))
  /\ (forall lower upper : number,
        lookup "minEmployees" filter = Some (JNum lower) ->
        lookup "maxEmployees" filter = Some (JNum upper) ->
        number_le lower upper ->
        findAll StringToNumber store (Some filter) log = filtered_query store filter log)
  /\ (lookup "minEmployees" filter = None \/ lookup "maxEmployees" filter = None ->
      findAll StringToNumber store (Some filter) log = filtered_query store filter log)
  /\ findAll StringToNumber store None log = filtered_query store [] log.
Proof.
  repeat split.
  - intros lower upper Hmin Hmax Hlt.
    unfold findAll, get. rewrite Hmin, Hmax.
    unfold js_gt. cbn [IsLessThan ToNumber].
    now rewrite (number_lt_lessThan upper lower Hlt).
  - intros lower upper Hmin Hmax Hle.
    apply findAll_checked. unfold get. rewrite Hmin, Hmax.
    unfold js_gt. cbn [IsLessThan ToNumber].
    now rewrite (number_le_lessThan lower upper Hle).
  - intros [Hmin | Hmax]; apply findAll_checked; unfold get.
    + rewrite Hmin. apply js_gt_undefined_l.
    + rewrite Hmax. apply js_gt_undefined_r.
  - apply (findAll_checked [] log). reflexivity.
Qed.

End FindAllProps.

Lemma findAll_range_check_witness :
  let store := fun (_ : string) (_ : list value) => Returned ([] : list row) in
  let text := findAll_text "WHERE num_employees >= $1 AND num_employees <=  $2" in
  findAll (fun _ => NaN) store
    (Some [("minEmployees", JInt 50); ("maxEmployees", JInt 10)]) []
  = (Thrown (BadRequestError "minEmployees must be less than maxEmployees"), [])
  /\ findAll (fun _ => NaN) store
       (Some [("minEmployees", JInt 10); ("maxEmployees", JInt 50)]) []
     = (Returned [], [mk_call text [JInt 10; JInt 50]])
  /\ findAll (fun _ => NaN) store (Some [("minEmployees", JInt 50)]) []
     = (Returned [],
        [mk_call (findAll_text "WHERE num_employees >= $1") [JInt 50]]).
Proof.
  intros store text.
  destruct (findAll_range_check (fun _ => NaN) store
              [("minEmployees", JInt 50); ("maxEmployees", JInt 10)] [])
    as [Hinverted _].
  destruct (findAll_range_check (fun _ => NaN) store
              [("minEmployees", JInt 10); ("maxEmployees", JInt 50)] [])
    as [_ [Hordered _]].
  destruct (findAll_range_check (fun _ => NaN) store [("minEmployees", JInt 50)] [])
    as [_ [_ [Hmissing _]]].
  split; [| split].
  - apply (Hinverted (Finite (inject_Z 50)) (Finite (inject_Z 10)));
      [reflexivity | reflexivity |].
    constructor. reflexivity.
  - apply (Hordered (Finite (inject_Z 10)) (Finite (inject_Z 50)));
      [reflexivity | reflexivity |].
    constructor. discriminate.
  - apply Hmissing. right. reflexivity.
Defined.

End CompanyProps.

(* ================================================================== *)
(** ** Properties of the auth middleware *)
(* ================================================================== *)

Module AuthProps.
Import JS ExpressError Auth Spec.

Lemma substring_whole (s : string) : String.substring 0 (String.length s) s = s.
Proof. induction s as [| c s IH]; cbn; [reflexivity | now rewrite IH]. Qed.

Lemma prefix_empty (s : string) : String.prefix "" s = true.
Proof. now destruct s. Qed.

Lemma strip_bearer_upper (token : string) : strip_bearer ("Bearer " ++ token) = token.
Proof. cbn. rewrite prefix_empty, Nat.sub_0_r. apply substring_whole. Qed.

Lemma strip_bearer_lower (token : string) : strip_bearer ("bearer " ++ token) = token.
Proof. cbn. rewrite prefix_empty, Nat.sub_0_r. apply substring_whole. Qed.

Lemma strip_bearer_no_prefix (s : string) :
  String.prefix "Bearer " s = false ->
  String.prefix "bearer " s = false ->
  strip_bearer s = s.
Proof.
  destruct s as [| c rest]; [reflexivity |].
  cbn [strip_bearer String.prefix]. intros HB Hb.
  destruct (Ascii.eqb_spec c "B") as [-> | nB].
  - cbn in HB. cbn [orb andb]. now rewrite HB.
  - destruct (Ascii.eqb_spec c "b") as [-> | nb].
    + cbn in Hb. cbn [orb andb]. now rewrite Hb.
    + reflexivity.
Qed.

Lemma truthy_string (s : string) : truthy (JStr s) = true <-> s <> "".
Proof.
  cbn. destruct (String.eqb_spec s ""); cbn; split; congruence.
Qed.

Section Extraction.

Variable SECRET_KEY : string.
Variable jwt_verify : string -> string -> outcome payload.
Context {T : Type}.

(** What [authenticateJWT] does with a non-empty header. *)
Lemma authenticateJWT_header (req : request) (res : response)
  (next : response -> outcome T) (h : string) :
  authorization req = Some h -> h <> "" ->
  authenticateJWT SECRET_KEY jwt_verify req res next
  = match jwt_verify (trim (strip_bearer h)) SECRET_KEY with
    | Returned user => next (set_user res user)
    | Thrown _ => next res
    end.
Proof.
  intros Hh Hne. unfold authenticateJWT. rewrite Hh.
  apply truthy_string in Hne. rewrite Hne.
  now destruct (jwt_verify _ _).
Qed.

(** C7: [authenticateJWT] never throws of its own and always goes on to
    [next]; without a header, and whenever verification fails, [next]
    sees [res.locals] as it was; when the token verifies, [next] sees
    the payload as [res.locals.user]. *)
Theorem authenticateJWT_soft_fail (req : request) (res : response)
  (next : response -> outcome T) :
  (exists res' : response, authenticateJWT SECRET_KEY jwt_verify req res next = next res')
  /\ (authorization req = None \/ authorization req = Some "" ->
      authenticateJWT SECRET_KEY jwt_verify req res next = next res)
  /\ (forall (h : string) (err : error),
        authorization req = Some h ->
        jwt_verify (trim (strip_bearer h)) SECRET_KEY = Thrown err ->
        authenticateJWT SECRET_KEY jwt_verify req res next = next res)
  /\ (forall (h : string) (user : payload),
        authorization req = Some h -> h <> "" ->
        jwt_verify (trim (strip_bearer h)) SECRET_KEY = Returned user ->
        authenticateJWT SECRET_KEY jwt_verify req res next = next (set_user res user)
        /\ locals_user (set_user res user) = Some user).
Proof.
  assert (authorization req = None \/ authorization req = Some "" ->
          authenticateJWT SECRET_KEY jwt_verify req res next = next res) as Habsent.
  { unfold authenticateJWT. now intros [-> | ->]. }
  repeat split.
  - destruct (authorization req) as [h |] eqn:Hh.
    + destruct (String.eqb_spec h "") as [-> | Hne].
      * exists res. apply Habsent. now right.
      * rewrite (authenticateJWT_header req res next h Hh Hne).
        destruct (jwt_verify _ _) as [user | err]; eauto.
    + exists res. apply Habsent. now left.
  - exact Habsent.
  - intros h err Hh Hverify.
    destruct (String.eqb_spec h "") as [-> | Hne].
    + apply Habsent. now right.
    + now rewrite (authenticateJWT_header req res next h Hh Hne), Hverify.
  - now rewrite (authenticateJWT_header req res next h H H0), H1.
Qed.

(** C8, as the code has it: with the prefix ["Bearer "] or ["bearer "]
    (the first letter in either case, the rest in lower case) the
    prefix is removed and the rest trimmed before it is verified, so
    both give [next] the same [res.locals], which holds the payload
    when the token verifies; a non-empty token sent without any prefix
    does the same. *)
Theorem authenticateJWT_bearer_prefix (token : string) (res : response)
  (next : response -> outcome T) (upper lower bare : request) :
  authorization upper = Some ("Bearer " ++ token) ->
  authorization lower = Some ("bearer " ++ token) ->
  authorization bare = Some token ->
  authenticateJWT SECRET_KEY jwt_verify upper res next = authenticateJWT SECRET_KEY jwt_verify lower res next
  /\ (forall user : payload,
        jwt_verify (trim token) SECRET_KEY = Returned user ->
        authenticateJWT SECRET_KEY jwt_verify upper res next = next (set_user res user))
  /\ (token <> "" ->
      String.prefix "Bearer " token = false ->
      String.prefix "bearer " token = false ->
      authenticateJWT SECRET_KEY jwt_verify bare res next = authenticateJWT SECRET_KEY jwt_verify upper res next).
Proof.
  intros Hupper Hlower Hbare.
  rewrite (authenticateJWT_header upper res next _ Hupper) by discriminate.
  rewrite (authenticateJWT_header lower res next _ Hlower) by discriminate.
  rewrite strip_bearer_upper, strip_bearer_lower.
  repeat split.
  - intros user Hverify. now rewrite Hverify.
  - intros Hne HB Hb.
    rewrite (authenticateJWT_header bare res next _ Hbare Hne).
    now rewrite (strip_bearer_no_prefix token HB Hb).
Qed.

End Extraction.

Import Fixture.

Lemma authenticateJWT_soft_fail_witness :
  authenticateJWT "s3cret" verify_tok (with_authorization "Bearer tok") anonymous Returned
  = Returned (logged_in alice)
  /\ authenticateJWT "s3cret" verify_tok (with_authorization "Bearer t0k") anonymous Returned
     = Returned anonymous
  /\ authenticateJWT "s3cret" verify_tok no_params anonymous Returned
     = Returned anonymous.
Proof.
  destruct (authenticateJWT_soft_fail "s3cret" verify_tok
              (with_authorization "Bearer tok") anonymous Returned)
    as [_ [_ [_ Hvalid]]].
  destruct (authenticateJWT_soft_fail "s3cret" verify_tok
              (with_authorization "Bearer t0k") anonymous Returned)
    as [_ [_ [Hinvalid _]]].
  destruct (authenticateJWT_soft_fail "s3cret" verify_tok
              no_params anonymous Returned)
    as [_ [Habsent _]].
  split; [| split].
  - apply (Hvalid "Bearer tok" alice); [reflexivity | discriminate | reflexivity].
  - apply (Hinvalid "Bearer t0k" (JsonWebTokenError "jwt malformed")); reflexivity.
  - apply Habsent. left. reflexivity.
Defined.

(** C8 as stated fails: an upper-case prefix is not removed, so the token
    that verifies after ["Bearer "] does not verify after ["BEARER "]. *)
Lemma authenticateJWT_uppercase_prefix_kept :
  authenticateJWT "s3cret" verify_tok (with_authorization "Bearer tok") anonymous Returned
  = Returned (logged_in alice)
  /\ authenticateJWT "s3cret" verify_tok (with_authorization "BEARER tok") anonymous Returned
     = Returned anonymous
  /\ authenticateJWT "s3cret" verify_tok (with_authorization "BEARER tok") anonymous Returned
     <> authenticateJWT "s3cret" verify_tok (with_authorization "Bearer tok") anonymous Returned.
Proof.
  split; [reflexivity | split; [reflexivity |]].
  intros H. vm_compute in H. discriminate H.
Qed.

Lemma authenticateJWT_bearer_prefix_witness :
  authenticateJWT "s3cret" verify_tok (with_authorization "Bearer tok ") anonymous Returned
  = authenticateJWT "s3cret" verify_tok (with_authorization "bearer tok ") anonymous Returned
  /\ authenticateJWT "s3cret" verify_tok (with_authorization "Bearer tok ") anonymous Returned
     = Returned (logged_in alice)
  /\ authenticateJWT "s3cret" verify_tok (with_authorization "tok ") anonymous Returned
     = authenticateJWT "s3cret" verify_tok (with_authorization "Bearer tok ") anonymous Returned.
Proof.
  destruct (authenticateJWT_bearer_prefix "s3cret" verify_tok "tok " anonymous Returned
              (with_authorization "Bearer tok ") (with_authorization "bearer tok ")
              (with_authorization "tok ") eq_refl eq_refl eq_refl)
    as [Hsame [Hvalid Hbare]].
  split; [exact Hsame | split].
  - apply (Hvalid alice). reflexivity.
  - apply Hbare; [discriminate | reflexivity | reflexivity].
Defined.

Section Gates.

Context {T : Type}.
Variable req : request.
Variable res : response.
Variable next : response -> outcome T.

(** What [ensureIsAdminOrUser] tests. *)
Lemma ensureIsAdminOrUser_test :
  ensureIsAdminOrUser req res next
  = if truthy (user_prop (locals_user res) "isAdmin")
       || strict_eq (user_prop (locals_user res) "username") (param req "username")
    then next res
    else Thrown UnauthorizedError.
Proof.
  unfold ensureIsAdminOrUser, js_or.
  now destruct (truthy (user_prop (locals_user res) "isAdmin")) eqn:E; cbn; rewrite ?E.
Qed.

(** C9: [ensureIsAdmin] goes on to [next] when [user.isAdmin] is the
    boolean [true] and [user.username] is truthy, which for a string is to
    be non-empty; it throws [UnauthorizedError] when there is no user,
    when [isAdmin] is anything else, and when [username] is falsy. *)
Theorem ensureIsAdmin_exact :
  (user_prop (locals_user res) "isAdmin" = JBool true ->
   truthy (user_prop (locals_user res) "username") = true ->
   ensureIsAdmin req res next = next res)
  /\ (user_prop (locals_user res) "isAdmin" <> JBool true
      \/ truthy (user_prop (locals_user res) "username") = false ->
      ensureIsAdmin req res next = Thrown UnauthorizedError)
  /\ (locals_user res = None ->
      ensureIsAdmin req res next = Thrown UnauthorizedError)
  /\ (forall s : string,
        user_prop (locals_user res) "username" = JStr s ->
        (truthy (user_prop (locals_user res) "username") = true <-> s <> "")).
Proof.
  assert (user_prop (locals_user res) "isAdmin" <> JBool true ->
          ensureIsAdmin req res next = Thrown UnauthorizedError) as Hflag.
  { intros Hne. unfold ensureIsAdmin, js_and.
    destruct (user_prop (locals_user res) "isAdmin") as [| | [|] | n | s];
      try reflexivity.
    now contradiction Hne. }
  repeat split.
  - intros Hadmin Hname. unfold ensureIsAdmin, js_and.
    rewrite Hadmin. cbn. now rewrite Hname.
  - intros [Hne | Hname]; [now apply Hflag |].
    unfold ensureIsAdmin, js_and.
    destruct (strict_eq _ _); cbn; [now rewrite Hname | reflexivity].
  - intros Hnone. apply Hflag. rewrite Hnone. discriminate.
  - rewrite H. apply truthy_string.
  - rewrite H. apply truthy_string.
Qed.

(** C10: with no user on [res.locals] and no [username] route parameter,
    [ensureIsAdminOrUser] goes on to [next]: both sides of [===] are
    [undefined]. *)
Theorem ensureIsAdminOrUser_undefined_both :
  locals_user res = None ->
  lookup "username" (params req) = None ->
  ensureIsAdminOrUser req res next = next res.
Proof.
  intros Huser Hparam.
  rewrite ensureIsAdminOrUser_test. unfold param.
  now rewrite Huser, Hparam.
Qed.

End Gates.

Lemma ensureIsAdmin_exact_witness :
  ensureIsAdmin (T := unit) no_params (logged_in root) (fun _ => Returned tt)
  = Returned tt
  /\ ensureIsAdmin (T := unit) no_params (logged_in alice_string_flag)
       (fun _ => Returned tt)
     = Thrown UnauthorizedError
  /\ ensureIsAdmin (T := unit) no_params (logged_in alice_number_flag)
       (fun _ => Returned tt)
     = Thrown UnauthorizedError
  /\ ensureIsAdmin (T := unit) no_params anonymous (fun _ => Returned tt)
     = Thrown UnauthorizedError.
Proof.
  split; [| split; [| split]].
  - destruct (ensureIsAdmin_exact no_params (logged_in root) (fun _ => Returned tt))
      as [Hpass _].
    apply Hpass; reflexivity.
  - destruct (ensureIsAdmin_exact no_params (logged_in alice_string_flag)
                (fun _ => Returned tt)) as [_ [Hfail _]].
    apply Hfail. left. discriminate.
  - destruct (ensureIsAdmin_exact no_params (logged_in alice_number_flag)
                (fun _ => Returned tt)) as [_ [Hfail _]].
    apply Hfail. left. discriminate.
  - destruct (ensureIsAdmin_exact no_params anonymous (fun _ => Returned tt))
      as [_ [_ [Hnone _]]].
    apply Hnone. reflexivity.
Defined.

Lemma ensureIsAdminOrUser_undefined_both_witness :
  ensureIsAdminOrUser (T := unit) no_params anonymous (fun _ => Returned tt)
  = Returned tt.
Proof.
  apply (ensureIsAdminOrUser_undefined_both no_params anonymous (fun _ => Returned tt));
    reflexivity.
Defined.

(** C2, at identities whose [isAdmin] is not the boolean [true] but is
    truthy: [ensureIsAdminOrUser] lets them through to another user's
    route. *)
Theorem ensureIsAdminOrUser_truthy_flag :
  ensureIsAdminOrUser (T := unit) (about_user "bob") (logged_in alice_string_flag)
    (fun _ => Returned tt)
  = Returned tt
  /\ ensureIsAdminOrUser (T := unit) (about_user "bob") (logged_in alice_number_flag)
       (fun _ => Returned tt)
     = Returned tt
  /\ ensureIsAdmin (T := unit) (about_user "bob") (logged_in alice_string_flag)
       (fun _ => Returned tt)
     = Thrown UnauthorizedError.
Proof. repeat split; reflexivity. Qed.

(** The two cases of the specification's own example do as it says. *)
Example ensureIsAdminOrUser_self_only :
  ensureIsAdminOrUser (T := unit) (about_user "bob") (logged_in alice)
    (fun _ => Returned tt)
  = Thrown UnauthorizedError
  /\ ensureIsAdminOrUser (T := unit) (about_user "alice") (logged_in alice)
       (fun _ => Returned tt)
     = Returned tt.
Proof. split; reflexivity. Qed.

End AuthProps.

(* ================================================================== *)
(** ** Properties of the operations on single companies *)
(* ================================================================== *)

Module RowsProps.
Import JS ExpressError Db Rows CompanyRows Terms Samples.

Section Operations.

Variable NumberToString : number -> string.
Variable db : list db_call -> string -> list value -> outcome (list row).

(** One [await db.query]: the call is appended to the log whatever the
    store answers. *)
Lemma query_log (text : string) (params : list value) (log : list db_call) :
  snd (query db text params log) = (log ++ [mk_call text params])%list.
Proof. unfold query, Db.query. now destruct (db log text params). Qed.

Lemma query_answer (text : string) (params : list value) (log : list db_call)
  (rows : list row) :
  db log text params = Returned rows ->
  query db text params log = (Resolved rows, (log ++ [mk_call text params])%list).
Proof. intros H. unfold query, Db.query. now rewrite H. Qed.

Lemma query_failure (text : string) (params : list value) (log : list db_call)
  (e : error) :
  db log text params = Thrown e ->
  query db text params log
  = (Rejected (Express e), (log ++ [mk_call text params])%list).
Proof. intros H. unfold query, Db.query. now rewrite H. Qed.

(** The calls each operation makes. *)
Lemma create_trace (data : jsobject) (log : list db_call) :
  snd (create NumberToString db data log)
  = (log ++
     match db log create_select_text [JS.get data "handle"] with
     | Returned [] =>
         [mk_call create_select_text [JS.get data "handle"];
          mk_call create_insert_text
            [JS.get data "handle"; JS.get data "name"; JS.get data "description";
             JS.get data "numEmployees"; JS.get data "logoUrl"]]
     | _ => [mk_call create_select_text [JS.get data "handle"]]
     end)%list.
Proof.
  unfold create, bind, query at 1, Db.query.
  destruct (db log create_select_text [JS.get data "handle"]) as [[| r rows] | e];
    cbn [first_row hd_error throw snd]; try reflexivity.
  match goal with
  | |- snd (let (_, _) := query db ?t ?ps ?l in _) = _ =>
      pose proof (query_log t ps l) as Hlog;
      destruct (query db t ps l) as [[rows | f] log']
  end; cbn [snd ret] in *; subst; now rewrite <- app_assoc.
Qed.

Lemma get_trace (handle : value) (log : list db_call) :
  snd (get NumberToString db handle log)
  = (log ++
     match db log get_company_text [handle] with
     | Returned (_ :: _) =>
         [mk_call get_company_text [handle]; mk_call get_jobs_text [handle]]
     | _ => [mk_call get_company_text [handle]]
     end)%list.
Proof.
  unfold get, bind, query at 1, Db.query.
  destruct (db log get_company_text [handle]) as [[| r rows] | e];
    cbn [first_row hd_error throw snd]; try reflexivity.
  match goal with
  | |- snd (let (_, _) := query db ?t ?ps ?l in _) = _ =>
      pose proof (query_log t ps l) as Hlog;
      destruct (query db t ps l) as [[rows' | f] log']
  end; cbn [snd ret] in *; subst; now rewrite <- app_assoc.
Qed.

Lemma remove_trace (handle : value) (log : list db_call) :
  snd (remove NumberToString db handle log)
  = (log ++ [mk_call remove_text [handle]])%list.
Proof.
  unfold remove, bind, query, Db.query.
  now destruct (db log remove_text [handle]) as [[| r rows] | e].
Qed.

(** [create] on a handle the store already has: it throws
    [BadRequestError] naming the handle, after the one [SELECT]; no
    [INSERT] is sent. *)
Theorem create_duplicate (data : jsobject) (log : list db_call) (found : row)
  (others : list row) :
  db log create_select_text [JS.get data "handle"] = Returned (found :: others) ->
  create NumberToString db data log
  = (Rejected (Express (BadRequestError
                 ("Duplicate company: " ++ ToString NumberToString (JS.get data "handle")))),
     (log ++ [mk_call create_select_text [JS.get data "handle"]])%list).
Proof.
  intros H. unfold create, bind. now rewrite (query_answer _ _ _ _ H).
Qed.

(** [create] on a new handle: after the [SELECT] it sends the one
    [INSERT], which binds handle, name, description, numEmployees and
    logoUrl in this order (a field the data lacks as [undefined]); it
    returns the first row of the answer, and rejects as the store does. *)
Theorem create_inserts (data : jsobject) (log : list db_call) :
  db log create_select_text [JS.get data "handle"] = Returned [] ->
  let checked := (log ++ [mk_call create_select_text [JS.get data "handle"]])%list in
  let fields :=
    [JS.get data "handle"; JS.get data "name"; JS.get data "description";
     JS.get data "numEmployees"; JS.get data "logoUrl"] in
  snd (create NumberToString db data log)
  = (checked ++ [mk_call create_insert_text fields])%list
  /\ (forall rows : list row,
        db checked create_insert_text fields = Returned rows ->
        fst (create NumberToString db data log) = Resolved (first_row rows))
  /\ (forall e : error,
        db checked create_insert_text fields = Thrown e ->
        fst (create NumberToString db data log) = Rejected (Express e)).
Proof.
  intros H checked fields. unfold create, bind.
  rewrite (query_answer _ _ _ _ H). cbn [first_row hd_error].
  fold checked. fold fields.
  repeat split.
  - unfold query, Db.query. now destruct (db checked create_insert_text fields).
  - intros rows Hrows. now rewrite (query_answer _ _ _ _ Hrows).
  - intros e He. now rewrite (query_failure _ _ _ _ He).
Qed.

(** [get] on a handle the store does not have: it throws
    [NotFoundError] naming the handle after the one query for the company;
    the jobs are not asked for. *)
Theorem get_missing (handle : value) (log : list db_call) :
  db log get_company_text [handle] = Returned [] ->
  get NumberToString db handle log
  = (Rejected (NotFoundError ("No company: " ++ ToString NumberToString handle)),
     (log ++ [mk_call get_company_text [handle]])%list).
Proof.
  intros H. unfold get, bind. now rewrite (query_answer _ _ _ _ H).
Qed.

(** [get] on a handle the store has: the jobs are asked for with the same
    handle bound, and the result is the first company row with [jobs] set
    to all the rows of the second answer. *)
Theorem get_found (handle : value) (log : list db_call) (found : row)
  (others jobRows : list row) :
  db log get_company_text [handle] = Returned (found :: others) ->
  db (log ++ [mk_call get_company_text [handle]])%list get_jobs_text [handle]
  = Returned jobRows ->
  get NumberToString db handle log
  = (Resolved (mk_company found jobRows),
     (log ++ [mk_call get_company_text [handle]; mk_call get_jobs_text [handle]])%list).
Proof.
  intros Hcompany Hjobs. unfold get, bind.
  rewrite (query_answer _ _ _ _ Hcompany). cbn [first_row hd_error].
  rewrite (query_answer _ _ _ _ Hjobs). unfold ret.
  now rewrite <- app_assoc.
Qed.

(** [remove] sends its one [DELETE] with the handle bound; it returns
    when the store answers with a row and throws [NotFoundError] naming
    the handle when it answers with none. *)
Theorem remove_outcome (handle : value) (log : list db_call) (rows : list row) :
  db log remove_text [handle] = Returned rows ->
  snd (remove NumberToString db handle log)
  = (log ++ [mk_call remove_text [handle]])%list
  /\ (rows = [] ->
      fst (remove NumberToString db handle log)
      = Rejected (NotFoundError ("No company: " ++ ToString NumberToString handle)))
  /\ (rows <> [] -> fst (remove NumberToString db handle log) = Resolved tt).
Proof.
  intros H. unfold remove, bind. rewrite (query_answer _ _ _ _ H).
  destruct rows as [| r rows]; cbn [first_row hd_error]; repeat split;
    try reflexivity; intros E; congruence.
Qed.

(** In [create], [get] and [remove] the texts sent to the store do not
    depend on the arguments: the log only grows, by one or two calls, and
    the new calls carry the fixed texts, in their order. *)
Theorem fixed_query_texts (data : jsobject) (handle : value) (log : list db_call) :
  (exists calls : list db_call,
      snd (create NumberToString db data log) = (log ++ calls)%list
      /\ (texts calls = [create_select_text]
          \/ texts calls = [create_select_text; create_insert_text]))
  /\ (exists calls : list db_call,
        snd (get NumberToString db handle log) = (log ++ calls)%list
        /\ (texts calls = [get_company_text]
            \/ texts calls = [get_company_text; get_jobs_text]))
  /\ (exists calls : list db_call,
        snd (remove NumberToString db handle log) = (log ++ calls)%list
        /\ texts calls = [remove_text]).
Proof.
  split; [| split].
  - rewrite create_trace.
    destruct (db log create_select_text [JS.get data "handle"]) as [[| r rows] | e].
    + eexists. split; [reflexivity | right; reflexivity].
    + eexists. split; [reflexivity | left; reflexivity].
    + eexists. split; [reflexivity | left; reflexivity].
  - rewrite get_trace.
    destruct (db log get_company_text [handle]) as [[| r rows] | e].
    + eexists. split; [reflexivity | left; reflexivity].
    + eexists. split; [reflexivity | right; reflexivity].
    + eexists. split; [reflexivity | left; reflexivity].
  - rewrite remove_trace. eexists. split; reflexivity.
Qed.

End Operations.

Section Update.

Variable NumberToString : number -> string.
Variable db : list db_call -> string -> list value -> outcome (list row).
Variable sqlForPartialUpdate :
  jsobject -> list (string * string) -> outcome Company.fragment.

(** [update]: when [sqlForPartialUpdate] throws, [update] throws the same
    and the store is not called.  Otherwise it sends one [UPDATE] whose
    parameters are the helper's values followed by the handle, and whose
    [WHERE] names the handle by the placeholder one past the number of
    values, which is the handle's position; the answer's first row is the
    result, and no row is [NotFoundError]. *)
Theorem update_handle_placeholder (handle : value) (data : jsobject)
  (log : list db_call) :
  let jsToSql := [("numEmployees", "num_employees"); ("logoUrl", "logo_url")] in
  (forall e : error,
      sqlForPartialUpdate data jsToSql = Thrown e ->
      update NumberToString db sqlForPartialUpdate handle data log
      = (Rejected (Express e), log))
  /\ (forall frag : Company.fragment,
        sqlForPartialUpdate data jsToSql = Returned frag ->
        let n := List.length (Company.values frag) in
        let params := (Company.values frag ++ [handle])%list in
        let text := update_text (Company.setCols frag) (Spec.placeholder (S n)) in
        snd (update NumberToString db sqlForPartialUpdate handle data log)
        = (log ++ [mk_call text params])%list
        /\ nth_error params n = Some handle
        /\ (forall i : nat,
              i < n -> nth_error params i = nth_error (Company.values frag) i)
        /\ (db log text params = Returned [] ->
            fst (update NumberToString db sqlForPartialUpdate handle data log)
            = Rejected (NotFoundError ("No company: " ++ ToString NumberToString handle)))
        /\ (forall (found : row) (others : list row),
              db log text params = Returned (found :: others) ->
              fst (update NumberToString db sqlForPartialUpdate handle data log)
              = Resolved found)).
Proof.
  intros jsToSql. split.
  - intros e He. unfold update. fold jsToSql. now rewrite He.
  - intros frag Hfrag n params text.
    unfold update. fold jsToSql. rewrite Hfrag.
    rewrite Nat.add_1_r. fold n. fold params.
    change ("$" ++ nat_to_string (S n)) with (Spec.placeholder (S n)). fold text.
    unfold bind. repeat split.
    + unfold query, Db.query.
      now destruct (db log text params) as [[| r rows] | e].
    + unfold params, n. now rewrite nth_error_app2, Nat.sub_diag by lia.
    + intros i Hi. unfold params. now rewrite nth_error_app1 by exact Hi.
    + intros Hnone. now rewrite (query_answer db _ _ _ _ Hnone).
    + intros found others Hrows. now rewrite (query_answer db _ _ _ _ Hrows).
Qed.

End Update.

Lemma create_duplicate_witness :
  create digit_to_string acme_db acme []
  = (Rejected (Express (BadRequestError "Duplicate company: acme")),
     [mk_call create_select_text [JStr "acme"]]).
Proof.
  apply (create_duplicate digit_to_string acme_db acme [] acme []).
  reflexivity.
Defined.

Lemma create_inserts_witness :
  snd (create digit_to_string empty_db [("handle", JStr "acme"); ("name", JStr "Acme")] [])
  = [mk_call create_select_text [JStr "acme"];
     mk_call create_insert_text
       [JStr "acme"; JStr "Acme"; JUndefined; JUndefined; JUndefined]]
  /\ fst (create digit_to_string empty_db
            [("handle", JStr "acme"); ("name", JStr "Acme")] [])
     = Resolved None.
Proof.
  destruct (create_inserts digit_to_string empty_db
              [("handle", JStr "acme"); ("name", JStr "Acme")] [] eq_refl)
    as [Hlog [Hrows _]].
  split; [exact Hlog |].
  apply (Hrows []). reflexivity.
Defined.

Lemma get_missing_witness :
  get digit_to_string empty_db (JStr "nope") []
  = (Rejected (NotFoundError "No company: nope"),
     [mk_call get_company_text [JStr "nope"]]).
Proof.
  apply (get_missing digit_to_string empty_db (JStr "nope") []). reflexivity.
Defined.

Lemma get_found_witness :
  get digit_to_string acme_db (JStr "acme") []
  = (Resolved (mk_company acme [acme]),
     [mk_call get_company_text [JStr "acme"]; mk_call get_jobs_text [JStr "acme"]]).
Proof.
  apply (get_found digit_to_string acme_db (JStr "acme") [] acme [] [acme]);
    reflexivity.
Defined.

Lemma remove_outcome_witness :
  fst (remove digit_to_string empty_db (JInt 7) [])
  = Rejected (NotFoundError "No company: 7")
  /\ fst (remove digit_to_string acme_db (JStr "acme") []) = Resolved tt.
Proof.
  destruct (remove_outcome digit_to_string empty_db (JInt 7) [] [] eq_refl)
    as [_ [Hnone _]].
  destruct (remove_outcome digit_to_string acme_db (JStr "acme") [] [acme] eq_refl)
    as [_ [_ Hsome]].
  split; [now apply Hnone | apply Hsome; discriminate].
Defined.

Lemma update_handle_placeholder_witness :
  update digit_to_string empty_db set_name (JStr "acme") [] []
  = (Rejected (Express (BadRequestError "No data")), [])
  /\ snd (update digit_to_string acme_db set_name (JStr "acme")
            [("name", JStr "Acme Inc")] [])
     = [mk_call (update_text "name = $1" "$2") [JStr "Acme Inc"; JStr "acme"]]
  /\ fst (update digit_to_string acme_db set_name (JStr "acme")
            [("name", JStr "Acme Inc")] [])
     = Resolved acme.
Proof.
  destruct (update_handle_placeholder digit_to_string empty_db set_name
              (JStr "acme") [] []) as [Hthrown _].
  destruct (update_handle_placeholder digit_to_string acme_db set_name
              (JStr "acme") [("name", JStr "Acme Inc")] []) as [_ Hsent].
  destruct (Hsent (Company.mk_fragment "name = $1" [JStr "Acme Inc"]) eq_refl)
    as [Hlog [_ [_ [_ Hfound]]]].
  split; [| split].
  - apply (Hthrown (BadRequestError "No data")). reflexivity.
  - exact Hlog.
  - apply (Hfound acme []). reflexivity.
Defined.

End RowsProps.

(* ================================================================== *)
(** ** Properties of the gates, alone and behind [authenticateJWT] *)
(* ================================================================== *)

Module GateProps.
Import JS ExpressError Auth UsersRoutes Terms Fixture.

Lemma strict_eq_true (v : value) : strict_eq v (JBool true) = true -> v = JBool true.
Proof. destruct v as [| | [|] | n | s]; cbn; congruence. Qed.

Lemma strict_eq_string (v : value) (s : string) :
  strict_eq v (JStr s) = true <-> v = JStr s.
Proof.
  destruct v as [| | b | n | s']; cbn; split; try congruence.
  - intros H. apply String.eqb_eq in H. now subst.
  - intros H. injection H as ->. apply String.eqb_refl.
Qed.

Section Tests.

Context {T : Type}.
Variable req : request.
Variable res : response.
Variable next : response -> outcome T.

(** What each gate tests, as one boolean. *)
Lemma ensureLoggedIn_test :
  ensureLoggedIn req res next
  = if truthy (user_prop (locals_user res) "username") then next res
    else Thrown UnauthorizedError.
Proof. reflexivity. Qed.

Lemma ensureIsAdmin_test :
  ensureIsAdmin req res next
  = if strict_eq (user_prop (locals_user res) "isAdmin") (JBool true)
       && truthy (user_prop (locals_user res) "username")
    then next res
    else Thrown UnauthorizedError.
Proof.
  unfold ensureIsAdmin, js_and.
  now destruct (strict_eq (user_prop (locals_user res) "isAdmin") (JBool true)).
Qed.

Lemma ensureIsAdminOrUser_cases :
  ensureIsAdminOrUser req res next
  = if truthy (user_prop (locals_user res) "isAdmin")
       || strict_eq (user_prop (locals_user res) "username") (param req "username")
    then next res
    else Thrown UnauthorizedError.
Proof.
  unfold ensureIsAdminOrUser, js_or.
  now destruct (truthy (user_prop (locals_user res) "isAdmin")) eqn:E; cbn; rewrite ?E.
Qed.

End Tests.

Lemma param_targets (req : request) (username : string) :
  targets req username -> param req "username" = JStr username.
Proof. unfold targets, param. now intros ->. Qed.

(** Whoever passes [ensureIsAdmin] passes [ensureLoggedIn], and passes
    [ensureIsAdminOrUser] on every request, whatever user it is about. *)
Theorem admin_gate_strictest (req other : request) (res : response) :
  admits ensureIsAdmin req res ->
  admits ensureLoggedIn other res /\ admits ensureIsAdminOrUser other res.
Proof.
  unfold admits. rewrite ensureIsAdmin_test, ensureLoggedIn_test,
    ensureIsAdminOrUser_cases.
  destruct (strict_eq (user_prop (locals_user res) "isAdmin") (JBool true)) eqn:Hflag;
    [| discriminate].
  destruct (truthy (user_prop (locals_user res) "username")); [| discriminate].
  intros _. apply strict_eq_true in Hflag. now rewrite Hflag.
Qed.

Lemma admin_gate_strictest_witness :
  admits ensureLoggedIn (about_user "bob") (logged_in root)
  /\ admits ensureIsAdminOrUser (about_user "bob") (logged_in root).
Proof.
  apply (admin_gate_strictest no_params (about_user "bob") (logged_in root)).
  reflexivity.
Defined.

(** The converse fails for an administrator without a username:
    [ensureIsAdminOrUser] lets it through on every request, while
    [ensureIsAdmin] and [ensureLoggedIn] reject it. *)
Theorem admin_without_username (req : request) (res : response) :
  user_prop (locals_user res) "isAdmin" = JBool true ->
  truthy (user_prop (locals_user res) "username") = false ->
  admits ensureIsAdminOrUser req res
  /\ ~ admits ensureIsAdmin req res
  /\ ~ admits ensureLoggedIn req res.
Proof.
  unfold admits. rewrite ensureIsAdmin_test, ensureLoggedIn_test,
    ensureIsAdminOrUser_cases.
  intros -> ->. cbn. repeat split; discriminate.
Qed.

Lemma admin_without_username_witness :
  admits ensureIsAdminOrUser (about_user "bob")
    (logged_in (PObject [("isAdmin", JBool true)]))
  /\ ~ admits ensureIsAdmin (about_user "bob")
         (logged_in (PObject [("isAdmin", JBool true)]))
  /\ ~ admits ensureLoggedIn (about_user "bob")
         (logged_in (PObject [("isAdmin", JBool true)])).
Proof.
  apply (admin_without_username (about_user "bob")
           (logged_in (PObject [("isAdmin", JBool true)]))); reflexivity.
Defined.

(** On a request with a [username] parameter, an identity whose [isAdmin]
    is falsy passes [ensureIsAdminOrUser] exactly when its [username] is
    that string; if the string is not empty it then passes
    [ensureLoggedIn] too. *)
Theorem self_gate_exact (req : request) (res : response) (username : string) :
  targets req username ->
  truthy (user_prop (locals_user res) "isAdmin") = false ->
  (admits ensureIsAdminOrUser req res
   <-> user_prop (locals_user res) "username" = JStr username)
  /\ (username <> "" -> admits ensureIsAdminOrUser req res ->
      admits ensureLoggedIn req res).
Proof.
  intros Htarget Hflag. unfold admits.
  rewrite ensureIsAdminOrUser_cases, ensureLoggedIn_test.
  rewrite Hflag, (param_targets req username Htarget). cbn [orb].
  destruct (strict_eq (user_prop (locals_user res) "username") (JStr username))
    eqn:Heq.
  - apply strict_eq_string in Heq. split; [tauto |].
    intros Hne _. rewrite Heq.
    apply AuthProps.truthy_string in Hne. now rewrite Hne.
  - split; [| discriminate].
    split; [discriminate |].
    intros H. apply strict_eq_string in H. congruence.
Qed.

Lemma self_gate_exact_witness :
  (admits ensureIsAdminOrUser (about_user "alice") (logged_in alice)
   <-> user_prop (locals_user (logged_in alice)) "username" = JStr "alice")
  /\ ~ admits ensureIsAdminOrUser (about_user "bob") (logged_in alice).
Proof.
  destruct (self_gate_exact (about_user "alice") (logged_in alice) "alice"
              eq_refl eq_refl) as [Hself _].
  destruct (self_gate_exact (about_user "bob") (logged_in alice) "bob"
              eq_refl eq_refl) as [Hother _].
  split; [exact Hself |].
  intros H. apply Hother in H. discriminate H.
Defined.

Lemma no_identity_gate {T : Type} (req : request) (res : response)
  (next : response -> outcome T) (username : string) :
  targets req username -> locals_user res = None ->
  ensureIsAdminOrUser req res next = Thrown UnauthorizedError.
Proof.
  intros Htarget Hnone.
  rewrite ensureIsAdminOrUser_cases, (param_targets req username Htarget).
  now rewrite Hnone.
Qed.

(** On a request with a [username] parameter, [ensureIsAdminOrUser]
    throws [UnauthorizedError] when [res.locals] has no user, and when the
    user is a payload that is a string. *)
Theorem no_identity_rejected_with_target {T : Type} (req : request)
  (res : response) (next : response -> outcome T) (username : string) :
  targets req username ->
  locals_user res = None \/ (exists s : string, locals_user res = Some (PString s)) ->
  ensureIsAdminOrUser req res next = Thrown UnauthorizedError.
Proof.
  intros Htarget Huser.
  rewrite ensureIsAdminOrUser_cases, (param_targets req username Htarget).
  now destruct Huser as [-> | [s ->]].
Qed.

Lemma no_identity_rejected_with_target_witness :
  ensureIsAdminOrUser (T := unit) (about_user "bob") anonymous (fun _ => Returned tt)
  = Thrown UnauthorizedError.
Proof.
  apply (no_identity_rejected_with_target (about_user "bob") anonymous
           (fun _ => Returned tt) "bob").
  - reflexivity.
  - left. reflexivity.
Defined.

(** *** Trimming *)

Lemma trimStart_whitespace (w : string) : all_whitespace w = true -> trimStart w = "".
Proof.
  induction w as [| c w IH]; [reflexivity |].
  cbn. intros H. apply andb_true_iff in H. destruct H as [Hc Hw].
  rewrite Hc. now apply IH.
Qed.

Lemma trimStart_after_whitespace (w s : string) :
  all_whitespace w = true -> trimStart (w ++ s) = trimStart s.
Proof.
  induction w as [| c w IH]; [reflexivity |].
  cbn. intros H. apply andb_true_iff in H. destruct H as [Hc Hw].
  rewrite Hc. now apply IH.
Qed.

Lemma trimEnd_whitespace (w : string) : all_whitespace w = true -> trimEnd w = "".
Proof.
  induction w as [| c w IH]; [reflexivity |].
  cbn. intros H. apply andb_true_iff in H. destruct H as [Hc Hw].
  now rewrite (IH Hw), Hc.
Qed.

Lemma trimEnd_before_whitespace (s w : string) :
  all_whitespace w = true -> trimEnd (s ++ w) = trimEnd s.
Proof.
  intros Hw. induction s as [| c s IH].
  - cbn. now apply trimEnd_whitespace.
  - cbn. now rewrite IH.
Qed.

Lemma trimStart_append (s w : string) :
  trimStart (s ++ w) = trimStart s ++ w
  \/ (trimStart s = "" /\ trimStart (s ++ w) = trimStart w).
Proof.
  induction s as [| c s IH]; [now right |].
  cbn. destruct (is_whitespace c); [exact IH | now left].
Qed.

(** White space around a string does not change what [trim] gives. *)
Lemma trim_padding (before s after : string) :
  all_whitespace before = true -> all_whitespace after = true ->
  trim (before ++ s ++ after) = trim s.
Proof.
  intros Hb Ha. unfold trim.
  rewrite (trimStart_after_whitespace before _ Hb).
  destruct (trimStart_append s after) as [-> | [Hs ->]].
  - now apply trimEnd_before_whitespace.
  - rewrite Hs, (trimStart_whitespace after Ha). reflexivity.
Qed.

Section Chain.

Variable SECRET_KEY : string.
Variable jwt_verify : string -> string -> outcome payload.
Context {T : Type}.

Lemma authenticateJWT_no_header (req : request) (res : response)
  (next : response -> outcome T) :
  authorization req = None \/ authorization req = Some "" ->
  authenticateJWT SECRET_KEY jwt_verify req res next = next res.
Proof. unfold authenticateJWT. now intros [-> | ->]. Qed.

Lemma authenticateJWT_failed (req : request) (res : response)
  (next : response -> outcome T) (h : string) (err : error) :
  authorization req = Some h ->
  jwt_verify (trim (strip_bearer h)) SECRET_KEY = Thrown err ->
  authenticateJWT SECRET_KEY jwt_verify req res next = next res.
Proof.
  intros Hh Hverify.
  destruct (String.eqb_spec h "") as [-> | Hne].
  - apply authenticateJWT_no_header. now right.
  - now rewrite (AuthProps.authenticateJWT_header SECRET_KEY jwt_verify
                   req res next h Hh Hne), Hverify.
Qed.

(** White space between the prefix and the token, and after the token,
    does not matter: the header gives what the header without it gives. *)
Theorem authenticateJWT_ignores_padding (token before after : string)
  (padded plain : request) (res : response) (next : response -> outcome T) :
  all_whitespace before = true ->
  all_whitespace after = true ->
  authorization padded = Some ("Bearer " ++ before ++ token ++ after) ->
  authorization plain = Some ("Bearer " ++ token) ->
  authenticateJWT SECRET_KEY jwt_verify padded res next
  = authenticateJWT SECRET_KEY jwt_verify plain res next.
Proof.
  intros Hb Ha Hpadded Hplain.
  rewrite (AuthProps.authenticateJWT_header SECRET_KEY jwt_verify
             padded res next _ Hpadded) by discriminate.
  rewrite (AuthProps.authenticateJWT_header SECRET_KEY jwt_verify
             plain res next _ Hplain) by discriminate.
  rewrite !AuthProps.strip_bearer_upper.
  now rewrite (trim_padding before token after Hb Ha).
Qed.

(** A request without a header, with an empty one, or with a token that
    does not verify, on a response that has no user yet, is stopped by
    each gate placed after [authenticateJWT] (by [ensureIsAdminOrUser]
    when the request has a [username] parameter): the handler is not
    run and [UnauthorizedError] is thrown. *)
Theorem invalid_credentials_stopped (req : request) (res : response)
  (handler : response -> outcome T) :
  locals_user res = None ->
  (authorization req = None \/ authorization req = Some ""
   \/ exists (h : string) (err : error),
        authorization req = Some h
        /\ jwt_verify (trim (strip_bearer h)) SECRET_KEY = Thrown err) ->
  authenticateJWT SECRET_KEY jwt_verify req res
    (fun res' => ensureLoggedIn req res' handler)
  = Thrown UnauthorizedError
  /\ authenticateJWT SECRET_KEY jwt_verify req res
       (fun res' => ensureIsAdmin req res' handler)
     = Thrown UnauthorizedError
  /\ (forall username : string,
        targets req username ->
        authenticateJWT SECRET_KEY jwt_verify req res
          (fun res' => ensureIsAdminOrUser req res' handler)
        = Thrown UnauthorizedError).
Proof.
  intros Hfresh Hbad.
  assert (forall next : response -> outcome T,
             authenticateJWT SECRET_KEY jwt_verify req res next = next res) as Hskip.
  { intros next. destruct Hbad as [Hnone | [Hempty | [h [err [Hh Hverify]]]]].
    - apply authenticateJWT_no_header. now left.
    - apply authenticateJWT_no_header. now right.
    - now apply (authenticateJWT_failed req res next h err). }
  rewrite !Hskip. repeat split.
  - rewrite ensureLoggedIn_test. now rewrite Hfresh.
  - rewrite ensureIsAdmin_test. now rewrite Hfresh.
  - intros username Htarget.
    rewrite ensureIsAdminOrUser_cases, (param_targets req username Htarget).
    now rewrite Hfresh.
Qed.

(** A token that verifies to an object with a non-empty string
    [username] gets past [ensureLoggedIn], and past [ensureIsAdminOrUser]
    on requests about that user, to a handler that sees the payload as
    [res.locals.user]; with [isAdmin] the boolean [true] it gets past
    [ensureIsAdmin], and with [isAdmin] the boolean [false] it is stopped
    by [ensureIsAdmin] and by [ensureIsAdminOrUser] on requests about
    another user. *)
Theorem verified_token_chain (req : request) (res : response)
  (handler : response -> outcome T) (h username : string) (o : jsobject) :
  authorization req = Some h -> h <> "" ->
  jwt_verify (trim (strip_bearer h)) SECRET_KEY = Returned (PObject o) ->
  get o "username" = JStr username -> username <> "" ->
  let seen := set_user res (PObject o) in
  authenticateJWT SECRET_KEY jwt_verify req res
    (fun res' => ensureLoggedIn req res' handler)
  = handler seen
  /\ (targets req username ->
      authenticateJWT SECRET_KEY jwt_verify req res
        (fun res' => ensureIsAdminOrUser req res' handler)
      = handler seen)
  /\ (get o "isAdmin" = JBool true ->
      authenticateJWT SECRET_KEY jwt_verify req res
        (fun res' => ensureIsAdmin req res' handler)
      = handler seen)
  /\ (get o "isAdmin" = JBool false ->
      authenticateJWT SECRET_KEY jwt_verify req res
        (fun res' => ensureIsAdmin req res' handler)
      = Thrown UnauthorizedError
      /\ forall other : string,
          other <> username -> targets req other ->
          authenticateJWT SECRET_KEY jwt_verify req res
            (fun res' => ensureIsAdminOrUser req res' handler)
          = Thrown UnauthorizedError).
Proof.
  intros Hh Hne Hverify Hname Hnonempty seen.
  assert (forall next : response -> outcome T,
             authenticateJWT SECRET_KEY jwt_verify req res next = next seen) as Hset.
  { intros next.
    now rewrite (AuthProps.authenticateJWT_header SECRET_KEY jwt_verify
                   req res next h Hh Hne), Hverify. }
  rewrite !Hset.
  rewrite ensureLoggedIn_test, ensureIsAdmin_test, ensureIsAdminOrUser_cases.
  unfold seen, set_user. cbn [locals_user user_prop]. rewrite Hname.
  apply AuthProps.truthy_string in Hnonempty. rewrite Hnonempty.
  repeat split.
  - intros Htarget. rewrite (param_targets req username Htarget).
    cbn [strict_eq]. rewrite String.eqb_refl. now rewrite orb_true_r.
  - now intros ->.
  - now rewrite H.
  - intros other Hother Htarget. rewrite H, (param_targets req other Htarget).
    cbn [truthy strict_eq orb].
    destruct (String.eqb_spec username other); [congruence | reflexivity].
Qed.

End Chain.

Lemma authenticateJWT_ignores_padding_witness :
  authenticateJWT "s3cret" verify_tok (with_authorization "Bearer   tok ") anonymous Returned
  = authenticateJWT "s3cret" verify_tok (with_authorization "Bearer tok") anonymous Returned.
Proof.
  apply (authenticateJWT_ignores_padding "s3cret" verify_tok "tok" "  " " "
           (with_authorization "Bearer   tok ") (with_authorization "Bearer tok")
           anonymous Returned); reflexivity.
Defined.

Lemma invalid_credentials_stopped_witness :
  authenticateJWT "s3cret" verify_tok (with_authorization "Bearer forged") anonymous
    (fun res' => ensureLoggedIn (with_authorization "Bearer forged") res'
                   (fun _ => Returned tt))
  = Thrown UnauthorizedError
  /\ authenticateJWT "s3cret" verify_tok (about_user "bob") anonymous
       (fun res' => ensureIsAdminOrUser (about_user "bob") res' (fun _ => Returned tt))
     = Thrown UnauthorizedError.
Proof.
  destruct (invalid_credentials_stopped "s3cret" verify_tok
              (with_authorization "Bearer forged") anonymous (fun _ => Returned tt)
              eq_refl) as [Hlogin _].
  { right. right. exists "Bearer forged", (JsonWebTokenError "jwt malformed").
    split; reflexivity. }
  destruct (invalid_credentials_stopped "s3cret" verify_tok
              (about_user "bob") anonymous (fun _ => Returned tt)
              eq_refl) as [_ [_ Hself]].
  { left. reflexivity. }
  split; [exact Hlogin |].
  apply (Hself "bob"). reflexivity.
Defined.

Lemma verified_token_chain_witness :
  let req := mk_request (Some [("authorization", "Bearer tok")]) [("username", "alice")] in
  authenticateJWT "s3cret" verify_tok req anonymous
    (fun res' => ensureLoggedIn req res' Returned)
  = Returned (logged_in alice)
  /\ authenticateJWT "s3cret" verify_tok req anonymous
       (fun res' => ensureIsAdminOrUser req res' Returned)
     = Returned (logged_in alice)
  /\ authenticateJWT "s3cret" verify_tok req anonymous
       (fun res' => ensureIsAdmin req res' Returned)
     = Thrown UnauthorizedError.
Proof.
  intros req.
  destruct (verified_token_chain "s3cret" verify_tok req anonymous Returned
              "Bearer tok" "alice"
              [("username", JStr "alice"); ("isAdmin", JBool false)])
    as [Hlogin [Hself [_ Hplain]]];
    try reflexivity; try discriminate.
  split; [exact Hlogin | split].
  - apply Hself. reflexivity.
  - apply Hplain. reflexivity.
Defined.

Section Routes.

Context {T : Type}.
Variable handler : route -> request -> response -> outcome T.

(** No route of routes/users.js runs its handler for a request without a
    user on [res.locals]: each throws [UnauthorizedError]. *)
Theorem users_routes_need_identity (r : route) (req : request) (res : response) :
  (has_username r = true -> exists username : string, targets req username) ->
  locals_user res = None ->
  dispatch handler r req res = Thrown UnauthorizedError.
Proof.
  intros Hmatched Hnone. unfold dispatch.
  destruct r; cbn [middleware];
    try (rewrite ensureIsAdmin_test; now rewrite Hnone);
    destruct (Hmatched eq_refl) as [username Htarget];
    apply (no_identity_gate req res _ username Htarget Hnone).
Qed.

(** An administrator with a username reaches the handler of every route
    of routes/users.js. *)
Theorem users_routes_open_to_admin (r : route) (req : request) (res : response) :
  user_prop (locals_user res) "isAdmin" = JBool true ->
  truthy (user_prop (locals_user res) "username") = true ->
  dispatch handler r req res = handler r req res.
Proof.
  intros Hflag Hname. unfold dispatch.
  destruct r; cbn [middleware];
    rewrite ?ensureIsAdmin_test, ?ensureIsAdminOrUser_cases, Hflag, ?Hname;
    reflexivity.
Qed.

(** A user whose [isAdmin] is falsy reaches no handler of the two routes
    without [:username], and on the other four reaches the handler
    exactly for requests about the user's own username. *)
Theorem users_routes_for_self (r : route) (req : request) (res : response)
  (username target : string) :
  truthy (user_prop (locals_user res) "isAdmin") = false ->
  user_prop (locals_user res) "username" = JStr username ->
  (has_username r = false -> dispatch handler r req res = Thrown UnauthorizedError)
  /\ (has_username r = true -> targets req target ->
      (target = username -> dispatch handler r req res = handler r req res)
      /\ (target <> username -> dispatch handler r req res = Thrown UnauthorizedError)).
Proof.
  intros Hflag Hname. unfold dispatch. split.
  - destruct r; cbn [middleware has_username]; try discriminate; intros _;
      rewrite ensureIsAdmin_test;
      destruct (strict_eq (user_prop (locals_user res) "isAdmin") (JBool true)) eqn:E;
      try reflexivity; apply strict_eq_true in E; rewrite E in Hflag; discriminate.
  - intros Hhas Htarget.
    assert (middleware r req res (fun res' => handler r req res')
            = ensureIsAdminOrUser req res (fun res' => handler r req res')) as ->
      by (destruct r; try reflexivity; discriminate).
    rewrite ensureIsAdminOrUser_cases, Hflag, Hname, (param_targets req target Htarget).
    cbn [orb strict_eq].
    destruct (String.eqb_spec username target); split; congruence.
Qed.

End Routes.

Lemma users_routes_need_identity_witness :
  dispatch (fun _ _ _ => Returned tt) DeleteUser (about_user "bob") anonymous
  = Thrown UnauthorizedError
  /\ dispatch (fun _ _ _ => Returned tt) GetUsers no_params anonymous
     = Thrown UnauthorizedError.
Proof.
  split.
  - apply (users_routes_need_identity (fun _ _ _ => Returned tt) DeleteUser
             (about_user "bob") anonymous); [| reflexivity].
    intros _. exists "bob". reflexivity.
  - apply (users_routes_need_identity (fun _ _ _ => Returned tt) GetUsers
             no_params anonymous); [| reflexivity].
    discriminate.
Defined.

Lemma users_routes_open_to_admin_witness :
  dispatch (fun _ _ _ => Returned tt) DeleteUser (about_user "bob") (logged_in root)
  = Returned tt.
Proof.
  apply (users_routes_open_to_admin (fun _ _ _ => Returned tt) DeleteUser
           (about_user "bob") (logged_in root)); reflexivity.
Defined.

Lemma users_routes_for_self_witness :
  dispatch (fun _ _ _ => Returned tt) PostUsers no_params (logged_in alice)
  = Thrown UnauthorizedError
  /\ dispatch (fun _ _ _ => Returned tt) PatchUser (about_user "alice") (logged_in alice)
     = Returned tt
  /\ dispatch (fun _ _ _ => Returned tt) PatchUser (about_user "bob") (logged_in alice)
     = Thrown UnauthorizedError.
Proof.
  destruct (users_routes_for_self (fun _ _ _ => Returned tt) PostUsers no_params
              (logged_in alice) "alice" "alice" eq_refl eq_refl) as [Hadmin _].
  destruct (users_routes_for_self (fun _ _ _ => Returned tt) PatchUser
              (about_user "alice") (logged_in alice) "alice" "alice" eq_refl eq_refl)
    as [_ Hown].
  destruct (users_routes_for_self (fun _ _ _ => Returned tt) PatchUser
              (about_user "bob") (logged_in alice) "alice" "bob" eq_refl eq_refl)
    as [_ Hother].
  split; [| split].
  - apply Hadmin. reflexivity.
  - apply (Hown eq_refl eq_refl). reflexivity.
  - apply (Hother eq_refl eq_refl). discriminate.
Defined.

End GateProps.

(* ================================================================== *)
(** ** Further properties of the filter builder and of [findAll] *)
(* ================================================================== *)

Module BuilderProps.
Import JS ExpressError Db Company Spec Terms.

Lemma insert_by_index_permutation {A : Type} (p : string * A)
  (l : list (string * A)) :
  Permutation (insert_by_index p l) (p :: l).
Proof.
  induction l as [| q l IH]; cbn; [apply Permutation_refl |].
  destruct (index_of (fst p) <=? index_of (fst q))%N; [apply Permutation_refl |].
  apply perm_trans with (q :: p :: l); [now apply perm_skip | apply perm_swap].
Qed.

Lemma sort_by_index_permutation {A : Type} (l : list (string * A)) :
  Permutation (sort_by_index l) l.
Proof.
  induction l as [| p l IH]; cbn; [apply perm_nil |].
  apply perm_trans with (p :: sort_by_index l);
    [apply insert_by_index_permutation | now apply perm_skip].
Qed.

Lemma filter_split_permutation {A : Type} (f : A -> bool) (l : list A) :
  Permutation (filter f l ++ filter (fun a => negb (f a)) l) l.
Proof.
  induction l as [| a l IH]; cbn; [apply perm_nil |].
  destruct (f a); cbn.
  - now apply perm_skip.
  - apply Permutation_sym, Permutation_cons_app, Permutation_sym, IH.
Qed.

(** The own property order lists every property once. *)
Lemma Object_entries_permutation (data : jsobject) :
  Permutation (Object_entries data) data.
Proof.
  unfold Object_entries.
  apply perm_trans
    with (filter (fun p => is_array_index (fst p)) data
          ++ filter (fun p => negb (is_array_index (fst p))) data)%list.
  - apply Permutation_app_tail, sort_by_index_permutation.
  - apply (filter_split_permutation (fun p => is_array_index (fst p))).
Qed.

Lemma filterCompanies_values (data : jsobject) :
  values (_filterCompanies data) = Object_values data.
Proof.
  unfold _filterCompanies.
  destruct (List.length (Object_keys data) <? 1)%nat eqn:E; cbn [values].
  - symmetry. now apply CompanyProps.no_keys_no_values.
  - reflexivity.
Qed.

Lemma no_keys_iff (data : jsobject) :
  (List.length (Object_keys data) <? 1)%nat = true <-> data = [].
Proof.
  unfold Object_keys. rewrite length_map.
  rewrite (Permutation_length (Object_entries_permutation data)).
  destruct data; cbn; split; congruence.
Qed.

(** Whatever its keys are, the builder binds every value of the filter
    exactly once: the bound values are the filter's values up to order,
    as many as there are keys. *)
Theorem filterCompanies_binds_all (data : jsobject) :
  Permutation (values (_filterCompanies data)) (map snd data)
  /\ List.length (values (_filterCompanies data)) = List.length data.
Proof.
  rewrite filterCompanies_values. unfold Object_values. split.
  - apply Permutation_map, Object_entries_permutation.
  - rewrite length_map. apply Permutation_length, Object_entries_permutation.
Qed.

(** The clause is empty exactly for the filter without keys; for any
    other filter it begins with [WHERE] and a space. *)
Theorem filterCompanies_where (data : jsobject) :
  (setCols (_filterCompanies data) = "" <-> data = [])
  /\ (data <> [] ->
      exists conditions : string,
        setCols (_filterCompanies data) = "WHERE " ++ conditions).
Proof.
  unfold _filterCompanies.
  destruct (List.length (Object_keys data) <? 1)%nat eqn:E; cbn [setCols].
  - apply no_keys_iff in E. subst data. split; [tauto | congruence].
  - split.
    + split; [discriminate |]. intros Hnil. apply no_keys_iff in Hnil. congruence.
    + intros _. eexists. reflexivity.
Qed.





Section Bounds.

Variable StringToNumber : string -> number.
Variable store : string -> list value -> outcome (list row).

(** Two bounds that are strings are compared as strings, by code units,
    not as numbers: [findAll] throws the range error exactly when the
    upper bound comes before the lower one in that order. *)
Theorem findAll_string_bounds (filter : jsobject) (log : list db_call)
  (lower upper : string) :
  lookup "minEmployees" filter = Some (JStr lower) ->
  lookup "maxEmployees" filter = Some (JStr upper) ->
  (String.ltb upper lower = true ->
   findAll StringToNumber store (Some filter) log = (Thrown inverted_range, log))
  /\ (String.ltb upper lower = false ->
      findAll StringToNumber store (Some filter) log
      = filtered_query store filter log).
Proof.
  intros Hmin Hmax. split; intros Hlt.
  - unfold findAll, get. rewrite Hmin, Hmax.
    unfold js_gt. cbn [IsLessThan]. now rewrite Hlt.
  - apply CompanyProps.findAll_checked. unfold get. rewrite Hmin, Hmax.
    unfold js_gt. cbn [IsLessThan]. now rewrite Hlt.
Qed.

(** When the bounds are not both strings and one of them converts to
    [NaN] (it is missing, [undefined], [NaN], or a string that is no
    number), the range error is not thrown: [findAll] sends its query. *)
Theorem findAll_unordered_bounds (filter : jsobject) (log : list db_call) :
  (forall s t : string,
      get filter "minEmployees" = JStr s -> get filter "maxEmployees" <> JStr t) ->
  ToNumber StringToNumber (get filter "minEmployees") = NaN
  \/ ToNumber StringToNumber (get filter "maxEmployees") = NaN ->
  findAll StringToNumber store (Some filter) log = filtered_query store filter log.
Proof.
  intros Hmixed Hnan. apply CompanyProps.findAll_checked.
  unfold js_gt.
  assert (IsLessThan StringToNumber (get filter "maxEmployees")
            (get filter "minEmployees")
          = number_lessThan (ToNumber StringToNumber (get filter "maxEmployees"))
              (ToNumber StringToNumber (get filter "minEmployees"))) as ->.
  { destruct (get filter "maxEmployees") as [| | b | n | t] eqn:Emax; try reflexivity.
    destruct (get filter "minEmployees") as [| | b | n | s] eqn:Emin; try reflexivity.
    exfalso. now apply (Hmixed s t). }
  destruct Hnan as [-> | ->].
  - now rewrite CompanyProps.lessThan_NaN_r.
  - reflexivity.
Qed.

End Bounds.

Lemma findAll_string_bounds_witness :
  findAll (fun _ => NaN) (fun _ _ => Returned [])
    (Some [("minEmployees", JStr "9"); ("maxEmployees", JStr "10")]) []
  = (Thrown inverted_range, []).
Proof.
  apply (findAll_string_bounds (fun _ => NaN) (fun _ _ => Returned [])
           [("minEmployees", JStr "9"); ("maxEmployees", JStr "10")] [] "9" "10");
    reflexivity.
Defined.

Lemma findAll_unordered_bounds_witness :
  findAll (fun _ => NaN) (fun _ _ => Returned [])
    (Some [("minEmployees", JStr "many"); ("maxEmployees", JInt 10)]) []
  = filtered_query (fun _ _ => Returned [])
      [("minEmployees", JStr "many"); ("maxEmployees", JInt 10)] [].
Proof.
  apply (findAll_unordered_bounds (fun _ => NaN) (fun _ _ => Returned [])
           [("minEmployees", JStr "many"); ("maxEmployees", JInt 10)] []).
  - intros s t _. discriminate.
  - left. reflexivity.
Defined.


Lemma filterCompanies_where_witness :
  exists conditions : string,
    setCols (_filterCompanies [("unknown", JNull)]) = "WHERE " ++ conditions.
Proof.
  destruct (filterCompanies_where [("unknown", JNull)]) as [_ H].
  apply H. discriminate.
Defined.

End BuilderProps.
